(** * Event Management System: EventModel and AuthModel

    A shallow embedding of the two model classes of the repository
    (EventModel.js, AuthModel.js) and of the validation of the sign-up
    form (EventView.js), together with the properties of their
    natural-language specification.

    Conventions of the embedding.
    - JavaScript values that the models handle are flat: [undefined],
      [null], booleans, integral numbers and strings ([val]).  Strings are
      modelled over ASCII; [trim] and [toLowerCase] act on ASCII white
      space and ASCII letters.
    - A Number that holds an integer is modelled by that integer.  A
      Number is an IEEE-754 double: every integer of magnitude up to 2^53
      is one, and beyond that a double keeps 53 significant bits.  The
      arithmetic of the models ([n + 1], [n++], the result of [parseInt])
      is rounded to the nearest double, ties to even ([to_double]).  Where
      a Number is written out as a string ([parseInt] of a Number, a
      regular expression tested on a Number) it is below 10^21 in
      magnitude, so that it is written as digits and not in exponent
      notation.
    - A JavaScript object used as a record of fields (event form data, a
      user account, the session) is a finite map from field names to
      values ([gmap string val]); reading a missing field gives
      [undefined].
    - An event of the collection is always the object that [addEvent]
      built or [updateEvent] rebuilt, with the same nine fields, so it is
      a record.  Accounts come in several shapes (the default accounts
      have no [isActive] and no [lastLogin]) and are copied, stripped and
      merged by field name, so they stay maps.
    - A method call on a value that does not carry the method
      ([undefined.trim()], [(5).toLowerCase()]) throws a [TypeError].
    - Every operation is a function from the state before the call to an
      outcome (a returned value or a thrown exception) and the state after
      the call, so that mutations made before a [throw] stay visible.
    - [localStorage] holds, per key, either nothing or the value that
      [JSON.stringify] wrote there; [JSON.parse] after [JSON.stringify]
      drops the fields whose value is [undefined].  The storage substrate
      is taken to be durable and to accept every write, so the [catch]
      branches that only log a storage error are never entered.
    - [new Date().toISOString()] is an input of the operation that reads
      the clock.

    The file gives the definitions first (the JavaScript fragment, the two
    models, the predicates of the specification) and then the facts. *)

From Stdlib Require Import ZArith Ascii String List Lia.
From stdpp Require Import base option list gmap strings fin_maps pretty.

Open Scope Z_scope.

(** ** The JavaScript fragment used by the models *)

Module JS.

Inductive val : Type :=
| VUndef
| VNull
| VBool (b : bool)
| VNum (n : Z)
| VStr (s : string).

#[global] Instance val_eq_dec : EqDecision val.
Proof. solve_decision. Defined.

#[global] Instance val_inhabited : Inhabited val := populate VUndef.

(** [o.k] and [o[k]]. *)
Definition get (o : gmap string val) (k : string) : val :=
  default VUndef (o !! k).

(** ToBoolean: what [!v], [v || w], [v && w] and [if (v)] test. *)
Definition truthy (v : val) : bool :=
  match v with
  | VUndef | VNull => false
  | VBool b => b
  | VNum n => negb (n =? 0)
  | VStr s => negb (bool_decide (s = ""))
  end.

(** [v === w] on flat values. *)
Definition strict_eq (v w : val) : bool := bool_decide (v = w).

(** [v || w]. *)
Definition or_else (v w : val) : val := if truthy v then v else w.

(** [typeof v === 'string']. *)
Definition is_string (v : val) : Prop := ∃ s, v = VStr s.

Inductive exn : Type :=
| Error (msg : string)
| TypeError.

#[global] Instance exn_eq_dec : EqDecision exn.
Proof. solve_decision. Defined.

Inductive outcome (A : Type) : Type :=
| Return (a : A)
| Throw (e : exn).
Arguments Return {A} a.
Arguments Throw {A} e.

(** The value of a call that returned. *)
Definition returned {A : Type} (r : outcome A) : option A :=
  match r with
  | Return a => Some a
  | Throw _ => None
  end.

(** *** Numbers *)

(** The double nearest to the integer [n], ties to the even significand.
    Up to 2^53 every integer is a double.  Beyond, [a] has
    [Z.log2 a + 1] bits of which a double keeps the leading 53: [u] is
    the weight of the last bit kept, [q] the 53 bits and [r] what is cut
    off. *)
Definition to_double (n : Z) : Z :=
  let a := Z.abs n in
  if a <=? 2 ^ 53 then n
  else
    let u := 2 ^ (Z.log2 a - 52) in
    let q := a / u in
    let r := a mod u in
    let q' :=
      if 2 * r <? u then q
      else if u <? 2 * r then q + 1
      else if Z.even q then q else q + 1 in
    Z.sgn n * (q' * u).

(** [n + 1], and the value that [n++] leaves in [n]. *)
Definition plus_one (n : Z) : Z := to_double (n + 1).

Arguments to_double : simpl never.
Arguments plus_one : simpl never.

(** *** Strings *)

Definition is_space (c : ascii) : bool :=
  let n := nat_of_ascii c in
  ((9 <=? n)%nat && (n <=? 13)%nat) || (n =? 32)%nat.

Fixpoint trimStart (s : string) : string :=
  match s with
  | EmptyString => EmptyString
  | String c s' => if is_space c then trimStart s' else s
  end.

Fixpoint rev_onto (s acc : string) : string :=
  match s with
  | EmptyString => acc
  | String c s' => rev_onto s' (String c acc)
  end.

Definition reverse_string (s : string) : string := rev_onto s EmptyString.

Definition trimEnd (s : string) : string :=
  reverse_string (trimStart (reverse_string s)).

Definition trim (s : string) : string := trimEnd (trimStart s).

Definition lower_char (c : ascii) : ascii :=
  let n := nat_of_ascii c in
  if ((65 <=? n)%nat && (n <=? 90)%nat) then ascii_of_nat (n + 32) else c.

Fixpoint toLowerCase (s : string) : string :=
  match s with
  | EmptyString => EmptyString
  | String c s' => String (lower_char c) (toLowerCase s')
  end.

(** A character that [trim] does not remove. *)
Definition not_space (c : ascii) : bool := negb (is_space c).

(** [v.trim()], [v.toLowerCase()]: defined on strings only. *)
Definition call_trim (v : val) : outcome string :=
  match v with
  | VStr s => Return (trim s)
  | _ => Throw TypeError
  end.

Definition call_toLowerCase (v : val) : outcome string :=
  match v with
  | VStr s => Return (toLowerCase s)
  | _ => Throw TypeError
  end.

(** [v.length < n] for a truthy [v]: a string has a length, every other
    truthy flat value has [length === undefined], and [undefined < n] is
    false. *)
Definition length_lt (v : val) (n : nat) : bool :=
  match v with
  | VStr s => (String.length s <? n)%nat
  | _ => false
  end.

(** ToString, as applied by [RegExp.prototype.test] to its argument. *)
Definition toString (v : val) : string :=
  match v with
  | VUndef => "undefined"
  | VNull => "null"
  | VBool true => "true"
  | VBool false => "false"
  | VNum n => pretty n
  | VStr s => s
  end.

(** [s.startsWith(t)]. *)
Fixpoint starts_with (t s : string) : bool :=
  match t, s with
  | EmptyString, _ => true
  | String a t', String b s' => bool_decide (a = b) && starts_with t' s'
  | String _ _, EmptyString => false
  end.

(** [s.includes(t)]: [t] starts at some position of [s]. *)
Fixpoint includes (s t : string) : bool :=
  starts_with t s
  || match s with
     | EmptyString => false
     | String _ s' => includes s' t
     end.

(** *** parseInt *)

Definition digit_value (radix : Z) (c : ascii) : option Z :=
  let n := Z.of_nat (nat_of_ascii c) in
  let d :=
    if (48 <=? n) && (n <=? 57) then Some (n - 48)
    else if (97 <=? n) && (n <=? 122) then Some (n - 87)
    else if (65 <=? n) && (n <=? 90) then Some (n - 55)
    else None in
  match d with
  | Some k => if k <? radix then Some k else None
  | None => None
  end.

(** The longest prefix of digits, read in [radix]; [None] when the prefix
    is empty. *)
Fixpoint digits_prefix (radix : Z) (acc : option Z) (s : string) : option Z :=
  match s with
  | EmptyString => acc
  | String c s' =>
      match digit_value radix c with
      | Some d => digits_prefix radix (Some (radix * default 0 acc + d)) s'
      | None => acc
      end
  end.

Definition parseInt_string (s : string) : option Z :=
  let s1 := trimStart s in
  let '(neg, s2) :=
    match s1 with
    | String "-" r => (true, r)
    | String "+" r => (false, r)
    | _ => (false, s1)
    end in
  let '(radix, s3) :=
    match s2 with
    | String "0" (String "x" r) => (16, r)
    | String "0" (String "X" r) => (16, r)
    | _ => (10, s2)
    end in
  match digits_prefix radix None s3 with
  | Some n => Some (to_double (if neg then - n else n))
  | None => None
  end.

(** [parseInt(v)] with no radix argument; [None] is [NaN].  A Number is
    first written out as a string, which gives it back. *)
Definition parseInt (v : val) : option Z :=
  match v with
  | VNum n => Some n
  | VStr s => parseInt_string s
  | _ => None
  end.

(** [v === n] where [n] is the result of [parseInt]; [NaN] is equal to
    nothing. *)
Definition eq_number (v : val) (n : option Z) : bool :=
  match v, n with
  | VNum a, Some b => a =? b
  | _, _ => false
  end.

(** *** Arrays *)

(** [xs.findIndex(p)]; [None] is [-1]. *)
Fixpoint findIndex {A : Type} (p : A → bool) (xs : list A) : option nat :=
  match xs with
  | [] => None
  | x :: xs' => if p x then Some 0%nat else S <$> findIndex p xs'
  end.

(** [xs.find(p)] with a callback that may throw: the exception of the
    first throwing call escapes.  The index of the found element is kept
    next to it, because the element is the array's own object and the
    callers mutate it in place. *)
Fixpoint find_throwing {A : Type} (p : A → outcome bool) (xs : list A)
  : outcome (option (nat * A)) :=
  match xs with
  | [] => Return None
  | x :: xs' =>
      match p x with
      | Throw e => Throw e
      | Return true => Return (Some (0%nat, x))
      | Return false =>
          match find_throwing p xs' with
          | Return (Some (i, y)) => Return (Some (S i, y))
          | r => r
          end
      end
  end.

(** [xs.find(p)] with a callback that does not throw; [None] is
    [undefined]. *)
Definition find {A : Type} (p : A → bool) (xs : list A) : option A :=
  match findIndex p xs with
  | Some i => xs !! i
  | None => None
  end.

(** [xs.splice(i, 1)]: the array without its element at index [i]. *)
Definition splice1 {A : Type} (i : nat) (xs : list A) : list A :=
  take i xs ++ drop (S i) xs.

(** [Math.max(...ns)] of a non-empty array of integers; the largest of
    them, with no rounding. *)
Definition Math_max (n : Z) (ns : list Z) : Z := foldr Z.max n ns.

(** *** JSON *)

(** [JSON.parse(JSON.stringify(o))] for a flat object: the fields that
    hold [undefined] are not written. *)
Definition json_object (o : gmap string val) : gmap string val :=
  filter (λ kv, kv.2 ≠ VUndef) o.

(** *** Operations: state in, outcome and state out *)

Definition M (S A : Type) : Type := S → outcome A * S.

Definition ret {S A} (a : A) : M S A := λ s, (Return a, s).
Definition throw {S A} (e : exn) : M S A := λ s, (Throw e, s).
Definition bind {S A B} (m : M S A) (k : A → M S B) : M S B :=
  λ s, match m s with
       | (Return a, s') => k a s'
       | (Throw e, s') => (Throw e, s')
       end.
Definition lift {S A} (r : outcome A) : M S A := λ s, (r, s).
Definition read {S} : M S S := λ s, (Return s, s).
Definition modify {S} (f : S → S) : M S unit := λ s, (Return tt, f s).

End JS.

Import JS.

Notation "'let*' x ':=' m 'in' k" := (bind m (λ x, k))
  (at level 10, x name, m at level 100, k at level 200,
   format "'[v' 'let*'  x  :=  m  'in' '/' k ']'").
Notation "m >>; k" := (bind m (λ _, k))
  (at level 100, k at level 200, right associativity,
   format "'[v' m  >>; '/' k ']'").

(** ** Data model *)

(** The object that [addEvent] builds and [updateEvent] rebuilds.  The
    three trimmed fields are strings; [date], [time] and [createdBy] hold
    whatever truthy value the caller passed. *)
Record Event : Type := mkEvent {
  id : Z;
  title : string;
  description : string;
  date : val;
  time : val;
  location : string;
  createdBy : val;
  createdAt : string;
  updatedAt : option string
}.

#[global] Instance Event_eq_dec : EqDecision Event.
Proof. solve_decision. Defined.

(** The three keys the application uses. *)
Record localStorage : Type := mkStorage {
  item_events : option (list Event);
  item_users : option (list (gmap string val));
  item_currentUser : option (gmap string val)
}.

Definition setItem_events (l : list Event) (ls : localStorage) : localStorage :=
  mkStorage (Some l) (item_users ls) (item_currentUser ls).

Definition setItem_users (l : list (gmap string val)) (ls : localStorage)
  : localStorage :=
  mkStorage (item_events ls) (Some (json_object <$> l)) (item_currentUser ls).

Definition setItem_currentUser (o : gmap string val) (ls : localStorage)
  : localStorage :=
  mkStorage (item_events ls) (item_users ls) (Some (json_object o)).

Definition removeItem_currentUser (ls : localStorage) : localStorage :=
  mkStorage (item_events ls) (item_users ls) None.

(** ** EventModel *)

Module EventModel.

(** The fields of an instance, with the storage it reads and writes. *)
Record state : Type := mkState {
  events : list Event;
  nextId : Z;
  storage : localStorage
}.

Definition loadEvents (ls : localStorage) : list Event :=
  match item_events ls with
  | Some saved => saved
  | None => []
  end.

Definition saveEvents : M state unit :=
  modify (λ st, mkState (events st) (nextId st)
                        (setItem_events (events st) (storage st))).

Definition getNextId (evs : list Event) : Z :=
  match evs with
  | [] => 1
  | e :: es => plus_one (Math_max (id e) (id <$> es))
  end.

(** [new EventModel()] over the given storage. *)
Definition construct (ls : localStorage) : state :=
  let evs := loadEvents ls in
  mkState evs (getNextId evs) ls.

Definition required_fields_present (eventData : gmap string val) : bool :=
  truthy (get eventData "title") && truthy (get eventData "description")
  && truthy (get eventData "date") && truthy (get eventData "time")
  && truthy (get eventData "location").

Definition all_fields_required : exn := Error "All fields are required".

Definition addEvent (now : string) (eventData : gmap string val)
  : M state Event :=
  if negb (required_fields_present eventData) then throw all_fields_required
  else
    let* st := read in
    let new_id := nextId st in
    modify (λ st, mkState (events st) (plus_one (nextId st)) (storage st)) >>;
    let* t := lift (call_trim (get eventData "title")) in
    let* d := lift (call_trim (get eventData "description")) in
    let* l := lift (call_trim (get eventData "location")) in
    let event :=
      {| id := new_id;
         title := t;
         description := d;
         date := get eventData "date";
         time := get eventData "time";
         location := l;
         createdBy := or_else (get eventData "createdBy") (VStr "Unknown");
         createdAt := now;
         updatedAt := None |} in
    modify (λ st, mkState (events st ++ [event]) (nextId st) (storage st)) >>;
    saveEvents >>;
    ret event.

Definition getAllEvents (st : state) : list Event := events st.

Definition has_id (v : val) (e : Event) : bool :=
  match parseInt v with
  | Some n => id e =? n
  | None => false
  end.

Definition getEventById (v : val) (st : state) : option Event :=
  match findIndex (has_id v) (events st) with
  | Some i => events st !! i
  | None => None
  end.

Definition updateEvent (now : string) (v : val) (eventData : gmap string val)
  : M state (option Event) :=
  let* st := read in
  match findIndex (has_id v) (events st) with
  | None => ret None
  | Some index =>
      if negb (required_fields_present eventData) then throw all_fields_required
      else
        match events st !! index with
        | None => ret None (* not reached: [index] is an index of [events] *)
        | Some old =>
            let* t := lift (call_trim (get eventData "title")) in
            let* d := lift (call_trim (get eventData "description")) in
            let* l := lift (call_trim (get eventData "location")) in
            let event :=
              {| id := id old;
                 title := t;
                 description := d;
                 date := get eventData "date";
                 time := get eventData "time";
                 location := l;
                 createdBy := createdBy old;
                 createdAt := createdAt old;
                 updatedAt := Some now |} in
            modify (λ st, mkState (<[index := event]> (events st)) (nextId st)
                                  (storage st)) >>;
            saveEvents >>;
            ret (Some event)
        end
  end.

Definition deleteEvent (v : val) : M state (option Event) :=
  let* st := read in
  match findIndex (has_id v) (events st) with
  | None => ret None
  | Some index =>
      modify (λ st, mkState (splice1 index (events st)) (nextId st)
                            (storage st)) >>;
      saveEvents >>;
      ret (events st !! index)
  end.

Definition clearAllEvents : M state unit :=
  modify (λ st, mkState [] 1 (storage st)) >>;
  saveEvents.

Definition getEventsByCreator (creator : val) (st : state) : list Event :=
  filter (λ e, strict_eq (createdBy e) creator = true) (events st).

(** The callback of [filter] in [searchEvents], on the lowered term. *)
Definition mentions (term : string) (e : Event) : bool :=
  includes (toLowerCase (title e)) term
  || includes (toLowerCase (description e)) term.

(** [searchTerm.toLowerCase()] throws on a term that is not a string. *)
Definition searchEvents (searchTerm : val) (st : state)
  : outcome (list Event) :=
  match call_toLowerCase searchTerm with
  | Throw e => Throw e
  | Return term => Return (filter (λ e, mentions term e = true) (events st))
  end.

Definition getEventCount (st : state) : nat := length (events st).

End EventModel.

(** ** AuthModel *)

Module AuthModel.

(** The fields of an instance, with the storage it reads and writes.
    [currentUser] is [null] ([None]) or the session object.  The
    constructor sets [nextUserId] from the ids of the loaded accounts; the
    operations below only read and increment it. *)
Record state : Type := mkState {
  users : list (gmap string val);
  currentUser : option (gmap string val);
  nextUserId : Z;
  storage : localStorage
}.

Definition defaultUsers (now1 now2 : string) : list (gmap string val) :=
  [ {[ "id" := VNum 1; "username" := VStr "admin";
       "password" := VStr "password"; "role" := VStr "admin";
       "email" := VStr "admin@eventmanager.com";
       "fullName" := VStr "System Administrator";
       "phone" := VStr "+1-555-0100"; "createdAt" := VStr now1 ]};
    {[ "id" := VNum 2; "username" := VStr "user";
       "password" := VStr "123456"; "role" := VStr "user";
       "email" := VStr "user@eventmanager.com";
       "fullName" := VStr "Demo User";
       "phone" := VStr "+1-555-0101"; "createdAt" := VStr now2 ]} ].

(** [loadUsers()]: the persisted collection if there is one, otherwise the
    two default accounts, which are persisted at once.  [now1] and [now2]
    are the clock readings for the two [createdAt] stamps. *)
Definition loadUsers (now1 now2 : string) (ls : localStorage)
  : list (gmap string val) * localStorage :=
  match item_users ls with
  | Some saved => (saved, ls)
  | None =>
      let defaults := defaultUsers now1 now2 in
      (defaults, setItem_users defaults ls)
  end.

Definition loadCurrentUser (ls : localStorage) : option (gmap string val) :=
  item_currentUser ls.

(** [saveUsers()] with no argument: persists [this.users]. *)
Definition saveUsers : M state unit :=
  modify (λ st, mkState (users st) (currentUser st) (nextUserId st)
                        (setItem_users (users st) (storage st))).

Definition saveCurrentUser (user : gmap string val) : M state unit :=
  modify (λ st, mkState (users st) (Some user) (nextUserId st)
                        (setItem_currentUser user (storage st))).

(** The callback of [find] in [authenticate]. *)
Definition credentials_match (username password : val) (u : gmap string val)
  : outcome bool :=
  match call_toLowerCase (get u "username") with
  | Throw e => Throw e
  | Return name =>
      match call_trim username with
      | Throw e => Throw e
      | Return given =>
          Return (bool_decide (name = toLowerCase given)
                  && strict_eq (get u "password") password
                  && negb (strict_eq (get u "isActive") (VBool false)))
      end
  end.

(** [this.users[index][k] = v]. *)
Definition set_user_field (index : nat) (k : string) (v : val) : M state unit :=
  modify (λ st, mkState (alter (<[k := v]>) index (users st)) (currentUser st)
                        (nextUserId st) (storage st)).

Definition sessionUser (user : gmap string val) (now : string)
  : gmap string val :=
  {[ "id" := get user "id"; "username" := get user "username";
     "role" := get user "role"; "email" := get user "email";
     "fullName" := get user "fullName"; "phone" := get user "phone";
     "loginTime" := VStr now; "lastLogin" := get user "lastLogin" ]}.

(** [authenticate(username, password)]; [now1] stamps [lastLogin] and
    [now2] stamps [loginTime].  The result is the session object or
    [null] ([None]). *)
Definition authenticate (now1 now2 : string) (username password : val)
  : M state (option (gmap string val)) :=
  if negb (truthy username) || negb (truthy password)
  then throw (Error "Username and password are required")
  else
    let* st := read in
    let* found := lift (find_throwing (credentials_match username password)
                          (users st)) in
    match found with
    | Some (index, user) =>
        set_user_field index "lastLogin" (VStr now1) >>;
        saveUsers >>;
        let session := sessionUser (<["lastLogin" := VStr now1]> user) now2 in
        saveCurrentUser session >>;
        ret (Some session)
    | None => ret None
    end.

(** [const { password, ...rest } = user]. *)
Definition without_password (user : gmap string val) : gmap string val :=
  delete "password" user.

(** [u.id === parseInt(userId)].  Where an operation reads
    [this.users[userIndex]] after [findIndex] has returned [userIndex], the
    element exists, and the default of the lookup is never used. *)
Definition has_id (userId : val) (u : gmap string val) : bool :=
  eq_number (get u "id") (parseInt userId).

Definition getUserProfile (userId : val) (st : state)
  : option (gmap string val) :=
  match findIndex (has_id userId) (users st) with
  | Some index => without_password <$> users st !! index
  | None => None
  end.

(** *** The three regular expressions *)

Definition all_chars (p : ascii → bool) (s : string) : bool :=
  forallb p (list_ascii_of_string s).

Definition in_range (lo hi : nat) (c : ascii) : bool :=
  let n := nat_of_ascii c in (lo <=? n)%nat && (n <=? hi)%nat.

Definition is_digit (c : ascii) : bool := in_range 48 57 c.

(** [[a-zA-Z0-9_]]. *)
Definition is_word_char (c : ascii) : bool :=
  in_range 97 122 c || in_range 65 90 c || is_digit c
  || bool_decide (c = "_"%char).

(** [/^[a-zA-Z0-9_]+$/.test(s)]. *)
Definition username_regex (s : string) : bool :=
  negb (bool_decide (s = "")) && all_chars is_word_char s.

(** [[^\s@]]. *)
Definition is_email_char (c : ascii) : bool :=
  negb (is_space c) && negb (bool_decide (c = "@"%char)).

(** The part of [s] before and after its first [c]. *)
Fixpoint split_at (c : ascii) (s : string) : option (string * string) :=
  match s with
  | EmptyString => None
  | String a s' =>
      if bool_decide (a = c) then Some (EmptyString, s')
      else match split_at c s' with
           | Some (l, r) => Some (String a l, r)
           | None => None
           end
  end.

(** [s] has a dot that is not its last character. *)
Fixpoint dot_before_last (s : string) : bool :=
  match s with
  | String a (String _ _ as s') =>
      bool_decide (a = "."%char) || dot_before_last s'
  | _ => false
  end.

(** [/^[^\s@]+@[^\s@]+\.[^\s@]+$/.test(s)]: no white space, one [@]
    with something before it, and after it a dot that is neither the
    first nor the last character. *)
Definition email_regex (s : string) : bool :=
  match split_at "@" s with
  | Some (l, r) =>
      negb (bool_decide (l = "")) && all_chars is_email_char l
      && all_chars is_email_char r
      && match r with
         | String _ r' => dot_before_last r'
         | EmptyString => false
         end
  | None => false
  end.

Definition validateEmailFormat (email : val) : bool :=
  email_regex (toString email).

(** [s.replace(/[\s\-\(\)]/g, '')]. *)
Fixpoint strip_separators (s : string) : string :=
  match s with
  | EmptyString => EmptyString
  | String a s' =>
      if is_space a || bool_decide (a = "-"%char)
         || bool_decide (a = "("%char) || bool_decide (a = ")"%char)
      then strip_separators s'
      else String a (strip_separators s')
  end.

(** [/^[\+]?[1-9][\d]{0,15}$/.test(s)]. *)
Definition phone_regex (s : string) : bool :=
  let digits :=
    match s with
    | String "+" s' => s'
    | _ => s
    end in
  match digits with
  | String a rest =>
      in_range 49 57 a && all_chars is_digit rest
      && (String.length rest <=? 15)%nat
  | EmptyString => false
  end.

(** [phone.replace] exists on strings only. *)
Definition validatePhoneFormat (phone : val) : outcome bool :=
  match phone with
  | VStr s => Return (phone_regex (strip_separators s))
  | _ => Throw TypeError
  end.

(** *** Profile update *)

Definition allowedFields : list string := ["fullName"; "email"; "phone"].

Fixpoint forEach {S A} (f : A → M S unit) (xs : list A) : M S unit :=
  match xs with
  | [] => ret tt
  | x :: xs' => f x >>; forEach f xs'
  end.

(** The callback of [find] in [updateUserProfile]. *)
Definition email_taken_by_other (email userId : val) (u : gmap string val)
  : outcome bool :=
  match call_toLowerCase (get u "email") with
  | Throw e => Throw e
  | Return mine =>
      match call_toLowerCase email with
      | Throw e => Throw e
      | Return given =>
          Return (bool_decide (mine = given)
                  && negb (strict_eq (get u "id") userId))
      end
  end.

(** The uniqueness and shape tests on a changed email. *)
Definition check_email (userId : val) (updateData user : gmap string val)
  : M state unit :=
  let email := get updateData "email" in
  if truthy email && negb (strict_eq email (get user "email")) then
    let* st := read in
    let* taken := lift (find_throwing (email_taken_by_other email userId)
                          (users st)) in
    if bool_decide (is_Some taken)
    then throw (Error "Email address already in use")
    else if negb (validateEmailFormat email)
    then throw (Error "Please enter a valid email address")
    else ret tt
  else ret tt.

Definition check_phone (updateData : gmap string val) : M state unit :=
  let phone := get updateData "phone" in
  if truthy phone then
    let* ok := lift (validatePhoneFormat phone) in
    if negb ok then throw (Error "Please enter a valid phone number")
    else ret tt
  else ret tt.

(** The callback of [allowedFields.forEach]. *)
Definition update_field (userIndex : nat) (updateData : gmap string val)
    (field : string) : M state unit :=
  if negb (strict_eq (get updateData field) VUndef) then
    let* trimmed := lift (call_trim (get updateData field)) in
    set_user_field userIndex field (VStr trimmed)
  else ret tt.

(** The refresh of the session after the update:
    [{...this.currentUser, ...userProfile}] takes the fields of the
    profile where both objects have one. *)
Definition refresh_session (userId : val) (userIndex : nat) : M state unit :=
  let* st := read in
  match currentUser st with
  | Some session =>
      if strict_eq (get session "id") userId
      then
        let userProfile :=
          without_password (default ∅ (users st !! userIndex)) in
        saveCurrentUser (userProfile ∪ session)
      else ret tt
  | None => ret tt
  end.

Definition updateUserProfile (now : string) (userId : val)
    (updateData : gmap string val) : M state (gmap string val) :=
  let* st := read in
  match findIndex (has_id userId) (users st) with
  | None => throw (Error "User not found")
  | Some userIndex =>
      let user := default ∅ (users st !! userIndex) in
      check_email userId updateData user >>;
      check_phone updateData >>;
      forEach (update_field userIndex updateData) allowedFields >>;
      set_user_field userIndex "updatedAt" (VStr now) >>;
      saveUsers >>;
      refresh_session userId userIndex >>;
      let* st := read in
      ret (without_password (default ∅ (users st !! userIndex)))
  end.

(** *** Session *)

Definition logout : M state unit :=
  modify (λ st, mkState (users st) None (nextUserId st)
                        (removeItem_currentUser (storage st))).

Definition isAuthenticated (st : state) : bool :=
  bool_decide (is_Some (currentUser st)).

Definition hasRole (role : string) (st : state) : bool :=
  match currentUser st with
  | Some session => strict_eq (get session "role") (VStr role)
  | None => false
  end.

Definition isAdmin (st : state) : bool := hasRole "admin" st.

(** The two cases on concrete storage: nothing stored, and an empty
    collection stored. *)
Example loadUsers_runs :
  loadUsers "t1" "t2" (mkStorage None None None)
  = (defaultUsers "t1" "t2",
     mkStorage None (Some (defaultUsers "t1" "t2")) None)
  ∧ loadUsers "t1" "t2" (mkStorage None (Some []) None)
    = ([], mkStorage None (Some []) None).
Proof. split; reflexivity. Qed.

(** *** Password change *)

Definition changePassword (currentPassword newPassword : val)
  : M state bool :=
  let* st := read in
  match currentUser st with
  | None => throw (Error "User not authenticated")
  | Some session =>
      match findIndex (λ u, strict_eq (get u "username")
                                      (get session "username"))
                      (users st) with
      | None => ret false
      | Some userIndex =>
          let user := default ∅ (users st !! userIndex) in
          if negb (strict_eq (get user "password") currentPassword)
          then throw (Error "Current password is incorrect")
          else if negb (truthy newPassword) || length_lt newPassword 6
          then throw (Error
                        "New password must be at least 6 characters long")
          else
            set_user_field userIndex "password" newPassword >>;
            ret true
      end
  end.

(** *** Registration *)

(** The callbacks of the two [find] calls in [registerUser]. *)
Definition same_lowercase (k : string) (given : val) (u : gmap string val)
  : outcome bool :=
  match call_toLowerCase (get u k) with
  | Throw e => Throw e
  | Return mine =>
      match call_toLowerCase given with
      | Throw e => Throw e
      | Return theirs => Return (bool_decide (mine = theirs))
      end
  end.

Definition registerUser (now : string) (userData : gmap string val)
  : M state (gmap string val) :=
  let username := get userData "username" in
  let password := get userData "password" in
  let email := get userData "email" in
  let fullName := get userData "fullName" in
  let phone := get userData "phone" in
  if negb (truthy username) || negb (truthy password)
     || negb (truthy email) || negb (truthy fullName)
  then throw (Error "Username, password, email, and full name are required")
  else if length_lt username 3
  then throw (Error "Username must be at least 3 characters long")
  else if negb (username_regex (toString username))
  then throw (Error
         "Username can only contain letters, numbers, and underscores")
  else
    let* st := read in
    let* by_name := lift (find_throwing (same_lowercase "username" username)
                            (users st)) in
    if bool_decide (is_Some by_name)
    then throw (Error "Username already exists")
    else
      let* by_email := lift (find_throwing (same_lowercase "email" email)
                               (users st)) in
      if bool_decide (is_Some by_email)
      then throw (Error "Email address already registered")
      else if negb (validateEmailFormat email)
      then throw (Error "Please enter a valid email address")
      else if length_lt password 6
      then throw (Error "Password must be at least 6 characters long")
      else
        (if truthy phone then
           let* ok := lift (validatePhoneFormat phone) in
           if negb ok then throw (Error "Please enter a valid phone number")
           else ret tt
         else ret tt) >>;
        let new_id := nextUserId st in
        modify (λ st, mkState (users st) (currentUser st)
                              (plus_one (nextUserId st)) (storage st)) >>;
        let* name := lift (call_trim username) in
        let* mail := lift (call_trim email) in
        let* full := lift (call_trim fullName) in
        let* tel := (if truthy phone then lift (call_trim phone)
                     else ret ""%string) in
        let newUser : gmap string val :=
          {[ "id" := VNum new_id; "username" := VStr name;
             "password" := password; "role" := VStr "user";
             "email" := VStr (toLowerCase mail); "fullName" := VStr full;
             "phone" := VStr tel; "createdAt" := VStr now;
             "isActive" := VBool true; "lastLogin" := VNull ]} in
        modify (λ st, mkState (users st ++ [newUser]) (currentUser st)
                              (nextUserId st) (storage st)) >>;
        saveUsers >>;
        ret (without_password newUser).

(** *** Queries for administrators *)

Definition access_denied : exn :=
  Error "Access denied. Admin privileges required.".

Definition getAllUsers (st : state) : outcome (list (gmap string val)) :=
  if negb (isAdmin st) then Throw access_denied
  else Return (without_password <$> users st).

Definition getUserByUsername (username : val) (st : state)
  : outcome (option (gmap string val)) :=
  if negb (isAdmin st) then Throw access_denied
  else
    match findIndex (λ u, strict_eq (get u "username") username) (users st)
    with
    | Some index => Return (without_password <$> users st !! index)
    | None => Return None
    end.


Definition validateSession (st : state) : bool :=
  bool_decide (is_Some (currentUser st)).

End AuthModel.

(** ** EventView: the validation of the sign-up form *)

Module EventView.

(** [if (b) errors.push(msg)]. *)
Definition push_if (b : bool) (msg : string) (errors : list string)
  : list string :=
  if b then errors ++ [msg] else errors.

(** The view has its own copy of the regular expression of
    [AuthModel.validateEmailFormat]. *)
Definition validateEmailFormat (email : val) : bool :=
  AuthModel.email_regex (toString email).

Definition validateSignupData (signupData : gmap string val) : list string :=
  let username := get signupData "username" in
  let fullName := get signupData "fullName" in
  let email := get signupData "email" in
  let password := get signupData "password" in
  let confirmPassword := get signupData "confirmPassword" in
  let errors := [] in
  let errors := push_if (negb (truthy username)) "Username is required"
                  errors in
  let errors := push_if (negb (truthy fullName)) "Full name is required"
                  errors in
  let errors := push_if (negb (truthy email)) "Email address is required"
                  errors in
  let errors := push_if (negb (truthy password)) "Password is required"
                  errors in
  let errors := push_if (negb (truthy confirmPassword))
                  "Please confirm your password" errors in
  let errors := push_if (truthy username && length_lt username 3)
                  "Username must be at least 3 characters long" errors in
  let errors :=
    push_if (truthy username
             && negb (AuthModel.username_regex (toString username)))
      "Username can only contain letters, numbers, and underscores" errors in
  let errors := push_if (truthy email && negb (validateEmailFormat email))
                  "Please enter a valid email address" errors in
  let errors := push_if (truthy password && length_lt password 6)
                  "Password must be at least 6 characters long" errors in
  let errors :=
    push_if (truthy password && truthy confirmPassword
             && negb (strict_eq password confirmPassword))
      "Passwords do not match" errors in
  let errors :=
    push_if (negb (truthy (get signupData "agreeTerms")))
      "You must agree to the Terms of Service and Privacy Policy" errors in
  errors.

End EventView.

(** ** What the specification talks about *)

(** The predicates, the sequences of calls and the sample stores that the
    statements about [EventModel] use. *)
Module EventSpec.
Import EventModel.

(** An event input whose five required fields are non-empty strings. *)
Definition filled_in (eventData : gmap string val) : Prop :=
  ∀ k, k ∈ ["title"; "description"; "date"; "time"; "location"] →
       ∃ s, get eventData k = VStr s ∧ s ≠ "".

(** An event input that validation accepts: it passes the required-field
    test, and the three fields that are trimmed are strings. *)
Definition accepted (eventData : gmap string val) : Prop :=
  required_fields_present eventData = true
  ∧ is_string (get eventData "title")
  ∧ is_string (get eventData "description")
  ∧ is_string (get eventData "location").

(** A field that is missing or the empty string. *)
Definition missing_or_empty (eventData : gmap string val) (k : string) : Prop :=
  get eventData k = VUndef ∨ get eventData k = VStr "".

Definition empty_storage : localStorage := mkStorage None None None.

Definition blank_title_input : gmap string val :=
  {[ "title" := VStr "   "; "description" := VStr "D";
     "date" := VStr "2025-01-01"; "time" := VStr "10:00";
     "location" := VStr "L"; "createdBy" := VStr "alice123" ]}.

Definition blank_title_event (now : string) : Event :=
  {| id := 1; title := ""; description := "D"; date := VStr "2025-01-01";
     time := VStr "10:00"; location := "L"; createdBy := VStr "alice123";
     createdAt := now; updatedAt := None |}.

Definition sample_input : gmap string val :=
  {[ "title" := VStr "T"; "description" := VStr "D";
     "date" := VStr "2025-01-01"; "time" := VStr "10:00";
     "location" := VStr "L" ]}.

Definition one_event_store : state :=
  (addEvent "2025-01-01T09:00:00.000Z" sample_input
     (construct empty_storage)).2.

(** The calls that change an [EventModel] ([addEvent], [updateEvent],
    [deleteEvent], [clearAllEvents]), and the construction of a new
    instance over what the previous one left in storage. *)
Inductive op : Type :=
| Create (now : string) (eventData : gmap string val)
| Update (now : string) (v : val) (eventData : gmap string val)
| Delete (v : val)
| Clear
| Reconstruct.

(** The state after a call, and the event the call created, if any. *)
Definition step (o : op) (st : state) : state * list Event :=
  match o with
  | Create now eventData =>
      match addEvent now eventData st with
      | (Return event, st') => (st', [event])
      | (Throw _, st') => (st', [])
      end
  | Update now v eventData => ((updateEvent now v eventData st).2, [])
  | Delete v => ((deleteEvent v st).2, [])
  | Clear => ((clearAllEvents st).2, [])
  | Reconstruct => (construct (storage st), [])
  end.

(** The state after a sequence of calls, and the events created on the
    way, oldest first. *)
Fixpoint run (ops : list op) (st : state) : state * list Event :=
  match ops with
  | [] => (st, [])
  | o :: ops' =>
      let '(st1, created1) := step o st in
      let '(st2, created2) := run ops' st1 in
      (st2, created1 ++ created2)
  end.

(** The sequence stays within one instance. *)
Definition same_lifetime (ops : list op) : Prop := Reconstruct ∉ ops.

(** The sequence does not call [clearAllEvents]. *)
Definition never_cleared (ops : list op) : Prop := Clear ∉ ops.

(** The ids of the collection are integers from -2^53 on, and so far
    below 2^53 that the given number of calls cannot take the counter
    beyond 2^53: up to there, adding 1 to a Number is exact. *)
Definition within_safe_integers (evs : list Event) (calls : nat) : Prop :=
  Z.of_nat calls < 2 ^ 53
  ∧ ∀ e, e ∈ evs → - 2 ^ 53 ≤ id e ∧ id e + Z.of_nat calls < 2 ^ 53.

(** The ids of the collection are pairwise distinct and below the
    counter, and storage holds the collection. *)
Record consistent (st : state) : Prop := mkConsistent {
  ids_distinct : NoDup (id <$> events st);
  ids_below_counter : ∀ e, e ∈ events st → id e < nextId st;
  storage_in_step : loadEvents (storage st) = events st
}.

(** The counter and the ids are in the range where adding 1 is exact,
    and the counter stays there for [calls] more calls. *)
Record headroom (st : state) (calls : Z) : Prop := mkHeadroom {
  counter_from : - 2 ^ 53 < nextId st;
  counter_upto : nextId st + calls ≤ 2 ^ 53;
  calls_upto : 1 + calls ≤ 2 ^ 53;
  ids_from : ∀ e, e ∈ events st → - 2 ^ 53 ≤ id e
}.

Definition event_A : gmap string val := <["title" := VStr "A"]> sample_input.
Definition event_B : gmap string val := <["title" := VStr "B"]> sample_input.
Definition event_C : gmap string val := <["title" := VStr "C"]> sample_input.

Definition delete_highest_then_reconstruct : list op :=
  [ Create "t1" event_A; Create "t2" event_B; Delete (VNum 2);
    Reconstruct; Create "t3" event_C ].

Definition delete_highest_same_lifetime : list op :=
  [ Create "t1" event_A; Create "t2" event_B; Delete (VNum 2);
    Create "t3" event_C ].

Definition clear_then_create : list op :=
  [ Create "t1" event_A; Clear; Create "t2" event_B ].

(** Storage that holds one event, whose id is 2^53. *)
Definition event_at_2_53 : Event :=
  {| id := 2 ^ 53; title := "A"; description := "D";
     date := VStr "2025-01-01"; time := VStr "10:00"; location := "L";
     createdBy := VStr "alice123"; createdAt := "t0"; updatedAt := None |}.

Definition storage_at_2_53 : localStorage :=
  mkStorage (Some [event_at_2_53]) None None.

(** Storage holds the collection. *)
Definition in_step (st : state) : Prop :=
  loadEvents (storage st) = events st.

Definition two_event_store : state :=
  (run [Create "t1" event_A; Create "t2" event_B] (construct empty_storage)).1.

End EventSpec.

(** The same for [AuthModel]. *)
Module AuthSpec.
Import AuthModel.

(** Every account carries a string [username] and a string [email]. *)
Definition well_formed (us : list (gmap string val)) : Prop :=
  Forall (λ u, is_string (get u "username") ∧ is_string (get u "email")) us.

Definition public_fields : list string :=
  ["id"; "username"; "role"; "email"; "fullName"; "phone"].

(** A deactivated account, and a store that holds it after the two
    default accounts; nobody is logged in. *)
Definition carol : gmap string val :=
  {[ "id" := VNum 3; "username" := VStr "carol"; "password" := VStr "secret1";
     "role" := VStr "user"; "email" := VStr "carol@x.com";
     "fullName" := VStr "Carol C"; "phone" := VStr "";
     "createdAt" := VStr "t0"; "isActive" := VBool false;
     "lastLogin" := VNull ]}.

Definition three_accounts : list (gmap string val) :=
  defaultUsers "t0" "t0" ++ [carol].

Definition logged_out : state :=
  mkState three_accounts None 4
    (setItem_users three_accounts (mkStorage None None None)).

Definition has_username (username : string) (u : gmap string val) : bool :=
  match get u "username" with
  | VStr s => bool_decide (toLowerCase s = toLowerCase (trim username))
  | _ => false
  end.

Definition has_password (password : string) (u : gmap string val) : bool :=
  bool_decide (get u "password" = VStr password).

Definition deactivated (u : gmap string val) : bool :=
  bool_decide (get u "isActive" = VBool false).

(** The three reasons for which a login with the given name and password
    finds no account. *)
Inductive failure_cause (us : list (gmap string val))
    (username password : string) : Prop :=
| username_absent :
    Forall (λ u, has_username username u = false) us →
    failure_cause us username password
| password_wrong :
    Exists (λ u, has_username username u = true) us →
    Forall (λ u, has_username username u = true →
                 has_password password u = false) us →
    failure_cause us username password
| account_inactive :
    Exists (λ u, has_username username u = true
                 ∧ has_password password u = true) us →
    Forall (λ u, has_username username u = true →
                 has_password password u = true →
                 deactivated u = true) us →
    failure_cause us username password.

(** [loadUsers] seeds: it returns the two default accounts and writes
    them to storage, which did not hold them before. *)
Definition seeds (now1 now2 : string) (ls : localStorage) : Prop :=
  loadUsers now1 now2 ls
  = (defaultUsers now1 now2, setItem_users (defaultUsers now1 now2) ls)
  ∧ (loadUsers now1 now2 ls).2 ≠ ls.

Definition not_authenticated : exn := Error "User not authenticated".
Definition authentication_error : exn := Error "Current password is incorrect".
Definition validation_error : exn :=
  Error "New password must be at least 6 characters long".

(** The account of the session: the first account whose username is the
    session's. *)
Definition session_account (st : state) (index : nat) (u : gmap string val)
  : Prop :=
  ∃ session,
    currentUser st = Some session
    ∧ findIndex (λ u, strict_eq (get u "username") (get session "username"))
        (users st) = Some index
    ∧ users st !! index = Some u.

(** A session of the first default account, whose password is
    'password'. *)
Definition admin_logged_in : state :=
  (authenticate "t1" "t2" (VStr "admin") (VStr "password") logged_out).2.

(** The session object of that login. *)
Definition admin_session : gmap string val :=
  {[ "id" := VNum 1; "username" := VStr "admin"; "role" := VStr "admin";
     "email" := VStr "admin@eventmanager.com";
     "fullName" := VStr "System Administrator";
     "phone" := VStr "+1-555-0100"; "loginTime" := VStr "t2";
     "lastLogin" := VStr "t1" ]}.

(** The account holds [s], in some case variant, in its field [k]. *)
Definition holds (k s : string) (u : gmap string val) : bool :=
  match get u k with
  | VStr t => bool_decide (toLowerCase t = toLowerCase s)
  | _ => false
  end.

(** Some account of the collection does. *)
Definition collides (k s : string) (us : list (gmap string val)) : Prop :=
  Exists (λ u, holds k s u = true) us.

Definition missing_required : exn :=
  Error "Username, password, email, and full name are required".
Definition username_exists : exn := Error "Username already exists".
Definition email_registered : exn := Error "Email address already registered".
Definition invalid_phone : exn := Error "Please enter a valid phone number".

(** The tests that [registerUser] makes before it looks for the username
    and the email in the collection. *)
Definition passes_earlier_checks (userData : gmap string val) : bool :=
  truthy (get userData "username") && truthy (get userData "password")
  && truthy (get userData "email") && truthy (get userData "fullName")
  && negb (length_lt (get userData "username") 3)
  && username_regex (toString (get userData "username")).

Definition taken_name_no_password : gmap string val :=
  {[ "username" := VStr "Admin"; "password" := VStr "";
     "email" := VStr "new@x.com"; "fullName" := VStr "Another Admin" ]}.

Definition taken_name : gmap string val :=
  {[ "username" := VStr "ADMIN"; "password" := VStr "secret1";
     "email" := VStr "new@x.com"; "fullName" := VStr "Another Admin" ]}.

Definition taken_email : gmap string val :=
  {[ "username" := VStr "alice123"; "password" := VStr "secret1";
     "email" := VStr "User@EventManager.com"; "fullName" := VStr "Alice A" ]}.

(** A session of the second default account, whose id is the number 2. *)
Definition user_logged_in : state :=
  (authenticate "t1" "t2" (VStr "user") (VStr "123456") logged_out).2.

Definition new_full_name : gmap string val :=
  {[ "fullName" := VStr "  Demo User II " ]}.

(** The update of that name by the account's own session. *)
Definition renamed : outcome (gmap string val) * state :=
  updateUserProfile "t5" (VNum 2) new_full_name user_logged_in.

(** A patch whose [phone] is [null]: the test of the phone number is
    skipped, and [null.trim()] throws after [fullName] has been written. *)
Definition name_and_null_phone : gmap string val :=
  {[ "fullName" := VStr "  Demo User II "; "phone" := VNull ]}.

Definition half_updated : outcome (gmap string val) * state :=
  updateUserProfile "t5" (VNum 2) name_and_null_phone user_logged_in.

(** The fields that an update step may write. *)
Definition writes (fields : list string) (updateData : gmap string val)
    (g : gmap string val → gmap string val) : Prop :=
  ∀ u k, (k ∉ fields ∨ get updateData k = VUndef) → g u !! k = u !! k.

Definition with_users (f : list (gmap string val) → list (gmap string val))
    (st : state) : state :=
  mkState (f (users st)) (currentUser st) (nextUserId st) (storage st).

(** The account that [registerUser] appends for accepted data. *)
Definition new_account (now : string) (userData : gmap string val)
    (new_id : Z) (name mail full tel : string) : gmap string val :=
  {[ "id" := VNum new_id; "username" := VStr (trim name);
     "password" := get userData "password"; "role" := VStr "user";
     "email" := VStr (toLowerCase (trim mail));
     "fullName" := VStr (trim full); "phone" := VStr tel;
     "createdAt" := VStr now; "isActive" := VBool true;
     "lastLogin" := VNull ]}.

(** The field [k] of an account in lower case, if it is a string. *)
Definition lowered (k : string) (u : gmap string val) : option string :=
  match get u k with
  | VStr s => Some (toLowerCase s)
  | _ => None
  end.

(** Usernames and emails are strings, and no two accounts have the same
    username or the same email, whatever the case of the letters. *)
Definition unique_accounts (us : list (gmap string val)) : Prop :=
  well_formed us
  ∧ NoDup (lowered "username" <$> us)
  ∧ NoDup (lowered "email" <$> us).

Definition alice : gmap string val :=
  {[ "username" := VStr "alice123"; "password" := VStr "secret1";
     "email" := VStr "A@x.com"; "fullName" := VStr "Alice A";
     "role" := VStr "admin" ]}.

(** A sign-up form as [getSignupData] reads it, with no phone number. *)
Definition signup_form : gmap string val :=
  {[ "username" := VStr "alice123"; "fullName" := VStr "Alice A";
     "email" := VStr "a@x.com"; "password" := VStr "secret1";
     "confirmPassword" := VStr "secret1"; "phone" := VStr "";
     "agreeTerms" := VBool true ]}.

(** What [registerUser] returns for [alice] when the counter is at 4. *)
Definition alice_profile : gmap string val :=
  without_password (new_account "t5" alice 4 "alice123" "A@x.com" "Alice A" "").

End AuthSpec.

(** ** Facts about the JavaScript fragment *)

Module Facts.

(** Unfolding one step of an operation. *)
Lemma bind_read {S A} (k : S → M S A) s : bind read k s = k s s.
Proof. reflexivity. Qed.

Lemma bind_lift {S A B} (r : outcome A) (k : A → M S B) s :
  bind (lift r) k s
  = match r with Return a => k a s | Throw e => (Throw e, s) end.
Proof. unfold bind, lift. by destruct r. Qed.

Lemma bind_modify {S A} (f : S → S) (k : unit → M S A) s :
  bind (modify f) k s = k tt (f s).
Proof. reflexivity. Qed.

Lemma bind_ret {S A B} (a : A) (k : A → M S B) s : bind (ret a) k s = k a s.
Proof. reflexivity. Qed.

Lemma bind_throw {S A B} e (k : A → M S B) s :
  bind (throw e) k s = (Throw e, s).
Proof. reflexivity. Qed.

Lemma bind_assoc {S A B C} (m : M S A) (k : A → M S B) (h : B → M S C) s :
  bind (bind m k) h s = bind m (λ a, bind (k a) h) s.
Proof. unfold bind. destruct (m s) as [[a|e] s']; reflexivity. Qed.

Ltac in_list := rewrite !elem_of_cons; tauto.

Lemma truthy_nonempty s : s ≠ "" → truthy (VStr s) = true.
Proof. intros Hs. simpl. by rewrite bool_decide_eq_false_2. Qed.

Lemma findIndex_Some {A} (p : A → bool) xs i :
  findIndex p xs = Some i →
  ∃ x, xs !! i = Some x ∧ p x = true
       ∧ ∀ j y, (j < i)%nat → xs !! j = Some y → p y = false.
Proof.
  revert i. induction xs as [|x xs IH]; intros i; simpl; [done|].
  destruct (p x) eqn:Hpx.
  - intros [= <-]. exists x. split_and!; [done..|]. intros; lia.
  - destruct (findIndex p xs) as [k|] eqn:Hk; simpl; [|done].
    intros [= <-]. destruct (IH k eq_refl) as (y & Hy & Hpy & Hlt).
    exists y. split_and!; [done..|].
    intros [|j] z Hj; simpl; [by intros [= <-]|].
    intros Hz. apply (Hlt j z); [lia | done].
Qed.

Lemma findIndex_None {A} (p : A → bool) xs :
  findIndex p xs = None → ∀ x, x ∈ xs → p x = false.
Proof.
  induction xs as [|x xs IH]; simpl; intros H y Hy.
  - by apply elem_of_nil in Hy.
  - destruct (p x) eqn:Hpx; [done|].
    destruct (findIndex p xs) eqn:Hk; [done|].
    apply elem_of_cons in Hy as [-> | Hy]; auto.
Qed.

Lemma plus_one_exact n : - 2 ^ 53 ≤ n < 2 ^ 53 → plus_one n = n + 1.
Proof.
  intros Hn. unfold plus_one, to_double. cbv zeta.
  destruct (Z.leb_spec (Z.abs (n + 1)) (2 ^ 53)); [done | lia].
Qed.

Lemma to_double_exact n : - 2 ^ 53 ≤ n ≤ 2 ^ 53 → to_double n = n.
Proof.
  intros Hn. unfold to_double. cbv zeta.
  destruct (Z.leb_spec (Z.abs n) (2 ^ 53)); [done | lia].
Qed.

(** Beyond 2^53 the odd integers are not doubles: they go to the
    neighbour whose significand is even. *)
Example to_double_runs :
  to_double (2 ^ 53 + 1) = 2 ^ 53
  ∧ to_double (2 ^ 53 + 2) = 2 ^ 53 + 2
  ∧ to_double (2 ^ 53 + 3) = 2 ^ 53 + 4
  ∧ to_double (- (2 ^ 53 + 1)) = - 2 ^ 53
  ∧ to_double (2 ^ 54 + 2) = 2 ^ 54
  ∧ to_double (2 ^ 54 + 6) = 2 ^ 54 + 8
  ∧ to_double (10 ^ 21) = 10 ^ 21
  ∧ plus_one (2 ^ 53) = 2 ^ 53
  ∧ plus_one (- 2 ^ 53) = - 2 ^ 53 + 1
  ∧ parseInt (VStr "9007199254740993") = Some 9007199254740992.
Proof. split_and!; reflexivity. Qed.

Lemma Math_max_ge n ns : n ≤ Math_max n ns ∧ ∀ k, k ∈ ns → k ≤ Math_max n ns.
Proof.
  unfold Math_max. induction ns as [|m ns [IH1 IH2]]; simpl.
  - split; [lia|]. intros k Hk. by apply elem_of_nil in Hk.
  - split; [lia|]. intros k Hk.
    apply elem_of_cons in Hk as [-> | Hk]; [lia|]. specialize (IH2 k Hk). lia.
Qed.

Lemma Math_max_elem n ns : Math_max n ns ∈ n :: ns.
Proof.
  unfold Math_max. induction ns as [|m ns IH]; simpl.
  - apply list_elem_of_here.
  - destruct (Z.max_spec m (foldr Z.max n ns)) as [[_ ->] | [_ ->]].
    + apply elem_of_cons in IH as [-> | IH].
      * apply list_elem_of_here.
      * do 2 apply list_elem_of_further. exact IH.
    + apply list_elem_of_further, list_elem_of_here.
Qed.

Lemma splice1_sublist {A} i (xs : list A) : splice1 i xs `sublist_of` xs.
Proof. unfold splice1. rewrite <- delete_take_drop. apply sublist_delete. Qed.

Lemma find_throwing_Some {A} (p : A → outcome bool) xs i x :
  find_throwing p xs = Return (Some (i, x)) →
  xs !! i = Some x ∧ p x = Return true.
Proof.
  revert i. induction xs as [|y xs IH]; intros i; simpl; [done|].
  destruct (p y) as [[|]|e] eqn:Hy; [by intros [= <- <-] | | done].
  destruct (find_throwing p xs) as [[[j z]|]|e]; [|done..].
  intros [= <- <-]. by apply IH.
Qed.

Lemma find_throwing_first {A} (p : A → outcome bool) xs i x :
  find_throwing p xs = Return (Some (i, x)) →
  ∀ j y, (j < i)%nat → xs !! j = Some y → p y = Return false.
Proof.
  revert i. induction xs as [|z xs IH]; intros i; simpl; [done|].
  destruct (p z) as [[|]|e] eqn:Hz; [intros [= <- <-]; intros; lia | | done].
  destruct (find_throwing p xs) as [[[k w]|]|e]; [|done..].
  intros [= <- <-] [|j] y Hj; simpl; [by intros [= <-]|].
  intros Hy. apply (IH k eq_refl j y); [lia | done].
Qed.

Lemma find_throwing_at {A} (p : A → outcome bool) xs i x :
  xs !! i = Some x → p x = Return true →
  (∀ j y, (j < i)%nat → xs !! j = Some y → p y = Return false) →
  find_throwing p xs = Return (Some (i, x)).
Proof.
  revert i. induction xs as [|z xs IH]; intros [|i] Hx Hp Hlt; simpl in *;
    try done.
  - injection Hx as ->. by rewrite Hp.
  - rewrite (Hlt 0%nat z) by (lia || done).
    rewrite (IH i Hx Hp); [done|].
    intros j y Hj Hy. apply (Hlt (S j) y); [lia | done].
Qed.

Lemma find_throwing_None {A} (p : A → outcome bool) xs :
  (∀ x, x ∈ xs → p x = Return false) → find_throwing p xs = Return None.
Proof.
  induction xs as [|y xs IH]; intros H; simpl; [done|].
  rewrite (H y) by apply list_elem_of_here.
  rewrite IH; [done|]. intros x Hx. apply H. by apply list_elem_of_further.
Qed.

Lemma find_throwing_found {A} (p : A → outcome bool) xs :
  (∀ x, x ∈ xs → ∃ b, p x = Return b) →
  (∃ x, x ∈ xs ∧ p x = Return true) →
  ∃ i x, find_throwing p xs = Return (Some (i, x)).
Proof.
  induction xs as [|y xs IH]; intros Hall (x & Hx & Hpx); simpl.
  { by apply elem_of_nil in Hx. }
  destruct (Hall y) as [[|] Hy]; [apply list_elem_of_here | |]; rewrite Hy.
  { by eexists _, _. }
  apply elem_of_cons in Hx as [-> | Hx]; [congruence|].
  destruct IH as (i & z & ->); [|by eauto|by eexists _, _].
  intros w Hw. apply Hall. by apply list_elem_of_further.
Qed.

Lemma find_throwing_first_throws {A} (p : A → outcome bool) x xs e :
  p x = Throw e → find_throwing p (x :: xs) = Throw e.
Proof. intros H. simpl. by rewrite H. Qed.

Lemma bind_Return_inv {S A B} (m : M S A) (k : A → M S B) s b s'' :
  bind m k s = (Return b, s'') →
  ∃ a s', m s = (Return a, s') ∧ k a s' = (Return b, s'').
Proof.
  unfold bind. destruct (m s) as [[a|e] s']; [|done]. intros H.
  by exists a, s'.
Qed.

Lemma bind_Throw_inv {S A B} (m : M S A) (k : A → M S B) s e s'' :
  bind m k s = (Throw e, s'') →
  m s = (Throw e, s'')
  ∨ ∃ a s', m s = (Return a, s') ∧ k a s' = (Throw e, s'').
Proof.
  unfold bind. destruct (m s) as [[a|e'] s']; intros H.
  - right. by exists a, s'.
  - left. by injection H as <- <-.
Qed.

Lemma alter_at {A} (f : A → A) (l : list A) i x :
  l !! i = Some x → alter f i l = <[i := f x]> l.
Proof.
  intros Hx. apply list_eq. intros j. destruct (decide (j = i)) as [-> | Hne].
  - rewrite list_lookup_alter_eq, Hx. simpl. symmetry.
    apply list_lookup_insert_eq. by eapply lookup_lt_Some.
  - by rewrite list_lookup_alter_ne, list_lookup_insert_ne.
Qed.

End Facts.

(** ** Properties of EventModel *)

Module EventProps.
Import EventModel EventSpec Facts.

(** *** Creation *)

Lemma filled_in_present eventData :
  filled_in eventData → required_fields_present eventData = true.
Proof.
  intros H. unfold required_fields_present.
  destruct (H "title") as (?&->&?); [in_list|].
  destruct (H "description") as (?&->&?); [in_list|].
  destruct (H "date") as (?&->&?); [in_list|].
  destruct (H "time") as (?&->&?); [in_list|].
  destruct (H "location") as (?&->&?); [in_list|].
  by rewrite !truthy_nonempty.
Qed.

Lemma filled_in_accepted eventData : filled_in eventData → accepted eventData.
Proof.
  intros H. split; [by apply filled_in_present|].
  destruct (H "title") as (t & Ht & _); [in_list|].
  destruct (H "description") as (d & Hd & _); [in_list|].
  destruct (H "location") as (l & Hl & _); [in_list|].
  split_and!; by eexists.
Qed.

Lemma missing_not_present eventData k :
  k ∈ ["title"; "description"; "date"; "time"; "location"] →
  missing_or_empty eventData k →
  required_fields_present eventData = false.
Proof.
  intros Hk Hm. unfold required_fields_present.
  assert (truthy (get eventData k) = false) as Hf
    by (destruct Hm as [-> | ->]; reflexivity).
  repeat (apply elem_of_cons in Hk as [-> | Hk];
          [rewrite Hf; rewrite ?andb_false_r; reflexivity|]).
  by apply elem_of_nil in Hk.
Qed.

(** A required field that is missing or empty makes [addEvent] throw, and
    nothing is changed. *)
Lemma addEvent_rejects_missing now eventData k st :
  k ∈ ["title"; "description"; "date"; "time"; "location"] →
  missing_or_empty eventData k →
  addEvent now eventData st = (Throw all_fields_required, st).
Proof.
  intros Hk Hm. unfold addEvent.
  by rewrite (missing_not_present _ _ Hk Hm).
Qed.

(** C1. The required-field test of [addEvent] is made on the fields as
    passed and the trimming after it: a title of three spaces passes the
    test and the event is stored and persisted with an empty title, so
    the collection holds an event whose title is empty after trimming.
    [updateEvent] does the same to an existing event. *)
Theorem addEvent_blank_title_stored now :
  addEvent now blank_title_input (construct empty_storage)
  = (Return (blank_title_event now),
     mkState [blank_title_event now] 2
       (mkStorage (Some [blank_title_event now]) None None))
  ∧ trim (title (blank_title_event now)) = ""
  ∧ (updateEvent now (VNum 1) blank_title_input one_event_store).1
    = Return (Some {| id := 1; title := ""; description := "D";
                      date := VStr "2025-01-01"; time := VStr "10:00";
                      location := "L"; createdBy := VStr "Unknown";
                      createdAt := "2025-01-01T09:00:00.000Z";
                      updatedAt := Some now |}).
Proof. split_and!; reflexivity. Qed.

(** What [addEvent] does on an input that passes the required-field test
    and whose three trimmed fields are strings. *)
Lemma addEvent_strings now eventData st t d l :
  required_fields_present eventData = true →
  get eventData "title" = VStr t →
  get eventData "description" = VStr d →
  get eventData "location" = VStr l →
  let event :=
    {| id := nextId st; title := trim t; description := trim d;
       date := get eventData "date"; time := get eventData "time";
       location := trim l;
       createdBy := or_else (get eventData "createdBy") (VStr "Unknown");
       createdAt := now; updatedAt := None |} in
  addEvent now eventData st
  = (Return event,
     mkState (events st ++ [event]) (plus_one (nextId st))
       (setItem_events (events st ++ [event]) (storage st))).
Proof.
  intros Hp Ht Hd Hl. unfold addEvent. rewrite Hp. simpl.
  unfold bind, read, modify, lift, saveEvents, ret. simpl.
  by rewrite Ht, Hd, Hl.
Qed.

(** C10. When the input is accepted by validation (in particular when
    its five required fields are non-empty strings) and [createdBy] is
    missing or empty, [addEvent] succeeds, and the event it returns and
    appends to the collection (and persists) has [createdBy] equal to the
    string 'Unknown'. *)
Theorem addEvent_unknown_creator now eventData st :
  accepted eventData →
  missing_or_empty eventData "createdBy" →
  ∃ event st',
    addEvent now eventData st = (Return event, st')
    ∧ createdBy event = VStr "Unknown"
    ∧ events st' = events st ++ [event]
    ∧ item_events (storage st') = Some (events st').
Proof.
  intros (Hp & [t Ht] & [d Hd] & [l Hl]) Hc.
  eexists _, _. split.
  { by apply (addEvent_strings now eventData st t d l). }
  simpl. split_and!; try reflexivity.
  by destruct Hc as [-> | ->].
Qed.

Lemma sample_input_filled_in : filled_in sample_input.
Proof.
  intros k Hk. rewrite !elem_of_cons in Hk.
  destruct Hk as [-> | [-> | [-> | [-> | [-> | Hk]]]]];
    [eexists; split; [reflexivity | discriminate] .. |].
  by apply elem_of_nil in Hk.
Defined.

Lemma addEvent_unknown_creator_witness :
  ∃ event st',
    addEvent "2025-01-01T09:00:00.000Z" sample_input (construct empty_storage)
    = (Return event, st')
    ∧ createdBy event = VStr "Unknown"
    ∧ events st' = events (construct empty_storage) ++ [event]
    ∧ item_events (storage st') = Some (events st').
Proof.
  apply addEvent_unknown_creator.
  - exact (filled_in_accepted _ sample_input_filled_in).
  - left. reflexivity.
Defined.

(** *** Update *)

(** What [updateEvent] does when the addressed event exists and the
    input passes the required-field test with three string fields. *)
Lemma updateEvent_strings now v eventData st index old t d l :
  findIndex (has_id v) (events st) = Some index →
  events st !! index = Some old →
  required_fields_present eventData = true →
  get eventData "title" = VStr t →
  get eventData "description" = VStr d →
  get eventData "location" = VStr l →
  let event :=
    {| id := id old; title := trim t; description := trim d;
       date := get eventData "date"; time := get eventData "time";
       location := trim l; createdBy := createdBy old;
       createdAt := createdAt old; updatedAt := Some now |} in
  updateEvent now v eventData st
  = (Return (Some event),
     mkState (<[index := event]> (events st)) (nextId st)
       (setItem_events (<[index := event]> (events st)) (storage st))).
Proof.
  intros Hi Ho Hp Ht Hd Hl. unfold updateEvent, bind, read. simpl.
  rewrite Hi, Hp. simpl. rewrite Ho.
  unfold lift, modify, saveEvents, ret. simpl.
  by rewrite Ht, Hd, Hl.
Qed.

(** C6. For an event found by [getEventById] and an input that
    validation accepts, [updateEvent] succeeds; the updated record keeps
    [id], [createdBy] and [createdAt], carries the time of the update in
    [updatedAt], replaces the old record at its index, and every other
    position of the collection holds the event it held before. *)
Theorem updateEvent_frame now v eventData st old :
  getEventById v st = Some old →
  accepted eventData →
  ∃ index event st',
    updateEvent now v eventData st = (Return (Some event), st')
    ∧ events st !! index = Some old
    ∧ id event = id old
    ∧ createdBy event = createdBy old
    ∧ createdAt event = createdAt old
    ∧ updatedAt event = Some now
    ∧ events st' !! index = Some event
    ∧ length (events st') = length (events st)
    ∧ ∀ j, j ≠ index → events st' !! j = events st !! j.
Proof.
  unfold getEventById. intros Hg (Hp & [t Ht] & [d Hd] & [l Hl]).
  destruct (findIndex (has_id v) (events st)) as [index|] eqn:Hi; [|done].
  eexists index, _, _. split.
  { by apply (updateEvent_strings now v eventData st index old t d l). }
  simpl. split_and!; try done.
  - apply list_lookup_insert_eq. by eapply lookup_lt_Some.
  - apply length_insert.
  - intros j Hj. by apply list_lookup_insert_ne.
Qed.

Lemma updateEvent_frame_witness :
  ∃ old index event st',
    getEventById (VStr "1") one_event_store = Some old
    ∧ updateEvent "2025-01-02T09:00:00.000Z" (VStr "1") sample_input
        one_event_store = (Return (Some event), st')
    ∧ events one_event_store !! index = Some old
    ∧ id event = id old
    ∧ createdBy event = createdBy old
    ∧ createdAt event = createdAt old
    ∧ updatedAt event = Some "2025-01-02T09:00:00.000Z"
    ∧ events st' !! index = Some event
    ∧ length (events st') = length (events one_event_store)
    ∧ ∀ j, j ≠ index → events st' !! j = events one_event_store !! j.
Proof.
  eexists.
  assert (getEventById (VStr "1") one_event_store
          = Some (mkEvent 1 "T" "D" (VStr "2025-01-01") (VStr "10:00") "L"
                    (VStr "Unknown") "2025-01-01T09:00:00.000Z" None)) as Hg
    by (reflexivity).
  destruct (updateEvent_frame "2025-01-02T09:00:00.000Z" (VStr "1")
              sample_input one_event_store _ Hg
              (filled_in_accepted _ sample_input_filled_in))
    as (index & event & st' & H).
  exists index, event, st'. split; [exact Hg | exact H].
Defined.

(** *** Identifiers over the life of a store *)

(** The counter of a new instance over ids in the range where adding 1
    is exact: 1 over an empty collection, otherwise one more than the
    largest id of the collection. *)
Lemma getNextId_seed evs :
  (∀ e, e ∈ evs → - 2 ^ 53 ≤ id e < 2 ^ 53) →
  (evs = [] ∧ getNextId evs = 1)
  ∨ (∃ e, e ∈ evs ∧ getNextId evs = id e + 1
          ∧ ∀ e', e' ∈ evs → id e' ≤ id e).
Proof.
  intros Hb. destruct evs as [|e0 es]; [by left|]. right. simpl.
  pose proof (Math_max_elem (id e0) (id <$> es)) as Hin.
  change (id e0 :: (id <$> es)) with (id <$> (e0 :: es)) in Hin.
  apply list_elem_of_fmap in Hin as (e & He & Hin).
  exists e. split_and!; [done | |].
  - rewrite He. apply plus_one_exact, Hb, Hin.
  - intros e' He'. rewrite <- He.
    destruct (Math_max_ge (id e0) (id <$> es)) as [H0 Hs].
    apply elem_of_cons in He' as [-> | He']; [lia|].
    apply Hs. by apply list_elem_of_fmap_2.
Qed.

Lemma getNextId_above evs e :
  (∀ e, e ∈ evs → - 2 ^ 53 ≤ id e < 2 ^ 53) →
  e ∈ evs → id e < getNextId evs.
Proof.
  intros Hb He.
  destruct (getNextId_seed evs Hb) as [[-> _] | (m & _ & -> & Hm)].
  - by apply elem_of_nil in He.
  - specialize (Hm e He). lia.
Qed.

Lemma construct_consistent ls calls :
  NoDup (id <$> loadEvents ls) →
  within_safe_integers (loadEvents ls) calls →
  consistent (construct ls) ∧ headroom (construct ls) (Z.of_nat calls).
Proof.
  intros Hnd [Hcalls Hb].
  assert (∀ e, e ∈ loadEvents ls → - 2 ^ 53 ≤ id e < 2 ^ 53) as Hb'
    by (intros e He; specialize (Hb e He); lia).
  split.
  - split; simpl; [done | intros e; by apply getNextId_above | done].
  - destruct (getNextId_seed (loadEvents ls) Hb')
      as [[_ Hn] | (m & Hm & Hn & _)];
      (split; simpl; [rewrite Hn | rewrite Hn | | intros e He; apply Hb', He]);
      try lia.
    all: specialize (Hb m Hm); lia.
Qed.

(** The three possible effects of [addEvent]. *)
Lemma addEvent_effect now eventData st :
  addEvent now eventData st = (Throw all_fields_required, st)
  ∨ addEvent now eventData st
    = (Throw TypeError,
       mkState (events st) (plus_one (nextId st)) (storage st))
  ∨ ∃ event, id event = nextId st
      ∧ addEvent now eventData st
        = (Return event,
           mkState (events st ++ [event]) (plus_one (nextId st))
             (setItem_events (events st ++ [event]) (storage st))).
Proof.
  unfold addEvent. destruct (required_fields_present eventData); simpl;
    [|left; by destruct st].
  right. unfold bind, read, modify, lift, saveEvents, ret; simpl.
  destruct (get eventData "title"); simpl; auto.
  destruct (get eventData "description"); simpl; auto.
  destruct (get eventData "location"); simpl; auto.
  right. eexists. split; [|reflexivity]. reflexivity.
Qed.

(** [updateEvent] either leaves the state as it is, or replaces one
    event by an event with the same id. *)
Lemma updateEvent_effect now v eventData st :
  (updateEvent now v eventData st).2 = st
  ∨ ∃ index old event,
      events st !! index = Some old ∧ id event = id old
      ∧ (updateEvent now v eventData st).2
        = mkState (<[index := event]> (events st)) (nextId st)
            (setItem_events (<[index := event]> (events st)) (storage st)).
Proof.
  unfold updateEvent, bind, read; simpl.
  destruct (findIndex (has_id v) (events st)) as [index|]; [|by left].
  destruct (required_fields_present eventData); simpl; [|by left].
  destruct (events st !! index) as [old|] eqn:Ho; [|by left].
  unfold lift, modify, saveEvents, ret; simpl.
  destruct (get eventData "title"); simpl; auto.
  destruct (get eventData "description"); simpl; auto.
  destruct (get eventData "location"); simpl; auto.
  right. eexists index, old, _. split_and!; [done | | reflexivity]. reflexivity.
Qed.

(** [deleteEvent] either leaves the state as it is, or removes one
    event. *)
Lemma deleteEvent_effect v st :
  (deleteEvent v st).2 = st
  ∨ ∃ index,
      (deleteEvent v st).2
      = mkState (splice1 index (events st)) (nextId st)
          (setItem_events (splice1 index (events st)) (storage st)).
Proof.
  unfold deleteEvent, bind, read; simpl.
  destruct (findIndex (has_id v) (events st)) as [index|]; [|by left].
  right. by exists index.
Qed.

Lemma loadEvents_setItem l ls : loadEvents (setItem_events l ls) = l.
Proof. reflexivity. Qed.

Lemma insert_same_id (evs : list Event) index old event :
  evs !! index = Some old → id event = id old →
  id <$> <[index := event]> evs = id <$> evs.
Proof.
  intros Ho Hid. rewrite list_fmap_insert. apply list_insert_id.
  by rewrite list_lookup_fmap, Ho, Hid.
Qed.

Lemma ids_bounded (P : Z → Prop) (evs evs' : list Event) :
  (∀ k, k ∈ id <$> evs' → k ∈ id <$> evs) →
  (∀ e, e ∈ evs → P (id e)) → ∀ e, e ∈ evs' → P (id e).
Proof.
  intros Hsub HP e He.
  destruct (proj1 (list_elem_of_fmap id evs (id e))) as (e' & -> & He');
    [apply Hsub; by apply list_elem_of_fmap_2 | by apply HP].
Qed.

Lemma headroom_fewer st calls calls' :
  0 ≤ calls' ≤ calls → headroom st calls → headroom st calls'.
Proof. intros ? [? ? ? ?]. split; [done | lia | lia | done]. Qed.

Lemma headroom_plus_one st calls :
  headroom st calls → 1 ≤ calls → plus_one (nextId st) = nextId st + 1.
Proof. intros [? ? ? ?] ?. apply plus_one_exact. lia. Qed.

(** A call keeps the ids distinct and below the counter, and uses up at
    most one of the calls that the counter has room for. *)
Lemma step_consistent o st calls :
  consistent st → headroom st calls → 1 ≤ calls →
  consistent (step o st).1 ∧ headroom (step o st).1 (calls - 1).
Proof.
  intros Hc Hh Hcalls.
  pose proof (headroom_fewer st calls (calls - 1) ltac:(lia) Hh) as Hh1.
  pose proof (headroom_plus_one st calls Hh Hcalls) as Hplus.
  destruct Hc as [Hnd Hlt Hst]. destruct Hh as [Hfrom Hupto Hroom Hids].
  destruct o as [now d | now v d | v | |]; simpl.
  - destruct (addEvent_effect now d st) as [-> | [-> | (event & Hid & ->)]];
      simpl; rewrite ?Hplus.
    + by split.
    + split; split; simpl; try done; try lia.
      intros e He. specialize (Hlt e He). lia.
    + split; split; simpl; try done; try lia.
      * rewrite fmap_app. apply NoDup_app. split_and!; [done | | ].
        -- intros k Hk Hk'. apply list_elem_of_singleton in Hk'. subst k.
           apply list_elem_of_fmap in Hk as (e & He1 & He2).
           specialize (Hlt e He2). simpl in *. lia.
        -- simpl. apply NoDup_singleton.
      * intros e [He | ->%list_elem_of_singleton]%elem_of_app.
        -- specialize (Hlt e He). lia.
        -- lia.
      * intros e [He | ->%list_elem_of_singleton]%elem_of_app.
        -- by apply Hids.
        -- lia.
  - destruct (updateEvent_effect now v d st)
      as [-> | (index & old & event & Ho & Hid & ->)]; [by split|].
    pose proof (insert_same_id _ _ _ _ Ho Hid) as Hids'.
    split; split; simpl; try done; try lia.
    + by rewrite Hids'.
    + apply (ids_bounded (λ k, k < nextId st) (events st));
        [by rewrite Hids' | done].
    + apply (ids_bounded (λ k, - 2 ^ 53 ≤ k) (events st));
        [by rewrite Hids' | done].
  - destruct (deleteEvent_effect v st) as [-> | (index & ->)]; [by split|].
    pose proof (splice1_sublist index (events st)) as Hsub.
    split; split; simpl; try done; try lia.
    + eapply sublist_NoDup; [exact Hnd | by apply fmap_sublist].
    + intros e He. apply Hlt. by eapply elem_of_sublist.
    + intros e He. apply Hids. by eapply elem_of_sublist.
  - split; split; simpl; try done; try lia.
    + apply NoDup_nil_2.
    + by intros e ?%elem_of_nil.
    + by intros e ?%elem_of_nil.
  - unfold construct. rewrite Hst.
    assert (∀ e, e ∈ events st → - 2 ^ 53 ≤ id e < 2 ^ 53) as Hb.
    { intros e He. specialize (Hlt e He). specialize (Hids e He). lia. }
    destruct (getNextId_seed (events st) Hb) as [[_ Hn] | (m & Hm & Hn & _)];
      (split; split; simpl; rewrite ?Hst, ?Hn;
       [done | intros e; rewrite <- Hn; by apply getNextId_above | done
        | | | | done]); try lia.
    all: specialize (Hlt m Hm); specialize (Hids m Hm); lia.
Qed.

Lemma run_consistent ops st calls :
  consistent st → headroom st calls → Z.of_nat (length ops) ≤ calls →
  consistent (run ops st).1.
Proof.
  revert st calls. induction ops as [|o ops IH]; intros st calls Hc Hh Hlen;
    simpl; [done|].
  simpl in Hlen.
  destruct (step_consistent o st calls Hc Hh) as [Hc1 Hh1]; [lia|].
  destruct (step o st) as [st1 created1]. simpl in *.
  specialize (IH st1 (calls - 1) Hc1 Hh1 ltac:(lia)).
  by destruct (run ops st1) as [st2 created2].
Qed.

(** Within one lifetime and without [clearAllEvents], a call never
    lowers the counter, and the event it creates takes the counter's
    value. *)
Lemma step_fresh o st calls :
  o ≠ Reconstruct → o ≠ Clear → headroom st calls → 1 ≤ calls →
  nextId st ≤ nextId (step o st).1
  ∧ ((step o st).2 = []
     ∨ ∃ event, (step o st).2 = [event] ∧ id event = nextId st
                ∧ nextId (step o st).1 = nextId st + 1).
Proof.
  intros Ho Ho' Hh Hcalls.
  pose proof (headroom_plus_one st calls Hh Hcalls) as Hplus.
  destruct o as [now d | now v d | v | |]; simpl; [| | |done..].
  - destruct (addEvent_effect now d st) as [-> | [-> | (event & Hid & ->)]];
      simpl; rewrite ?Hplus; (split; [lia|]); eauto.
  - destruct (updateEvent_effect now v d st)
      as [-> | (index & old & event & _ & _ & ->)]; simpl; (split; [lia|auto]).
  - destruct (deleteEvent_effect v st) as [-> | (index & ->)]; simpl;
      (split; [lia|auto]).
Qed.

Lemma run_fresh ops st calls :
  same_lifetime ops → never_cleared ops →
  consistent st → headroom st calls → Z.of_nat (length ops) ≤ calls →
  nextId st ≤ nextId (run ops st).1
  ∧ NoDup (id <$> (run ops st).2)
  ∧ ∀ e, e ∈ (run ops st).2 → nextId st ≤ id e < nextId (run ops st).1.
Proof.
  unfold same_lifetime, never_cleared. revert st calls.
  induction ops as [|o ops IH]; intros st calls Hl Hl' Hc Hh Hlen; simpl.
  { split_and!; [lia | apply NoDup_nil_2 | by intros e ?%elem_of_nil]. }
  simpl in Hlen.
  apply not_elem_of_cons in Hl as [Ho Hl].
  apply not_elem_of_cons in Hl' as [Ho' Hl'].
  destruct (step_fresh o st calls) as [Hle Hcr]; [done | done | done | lia |].
  destruct (step_consistent o st calls Hc Hh) as [Hc1 Hh1]; [lia|].
  destruct (step o st) as [st1 created1]; simpl in *.
  destruct (IH st1 (calls - 1) Hl Hl' Hc1 Hh1 ltac:(lia))
    as (Hle' & Hnd & Hrange).
  destruct (run ops st1) as [st2 created2]; simpl in *.
  destruct Hcr as [-> | (event & -> & Hid & Hn1)]; simpl.
  - split_and!; [lia | done |]. intros e He. specialize (Hrange e He). lia.
  - split_and!; [lia | |].
    + apply NoDup_cons. split; [|done].
      intros (e & He1 & He2)%list_elem_of_fmap.
      specialize (Hrange e He2). lia.
    + intros e [-> | He]%elem_of_cons; [lia|].
      specialize (Hrange e He). lia.
Qed.

(** Starting from empty storage: two events are created with ids 1 and
    2, the event with id 2 is deleted, a new instance is constructed from
    storage, and the next event created gets id 2 again, although it is
    another event than the deleted one. *)
Lemma id_reused_after_reconstruction :
  id <$> (run delete_highest_then_reconstruct (construct empty_storage)).2
  = [1; 2; 2]
  ∧ title <$> (run delete_highest_then_reconstruct (construct empty_storage)).2
    = ["A"; "B"; "C"]
  ∧ ¬ NoDup (id <$> (run delete_highest_then_reconstruct
                       (construct empty_storage)).2).
Proof.
  assert (id <$> (run delete_highest_then_reconstruct
                    (construct empty_storage)).2 = [1; 2; 2]) as H
    by reflexivity.
  split_and!; [exact H | reflexivity |].
  rewrite H. intros Hnd. apply NoDup_cons in Hnd as [_ Hnd].
  apply NoDup_cons in Hnd as [Hnd _]. apply Hnd, list_elem_of_here.
Qed.

(** [clearAllEvents] sets the counter back to 1 within the instance: the
    event created after it gets the id of the event created before it. *)
Example id_reused_after_clearAllEvents :
  id <$> (run clear_then_create (construct empty_storage)).2 = [1; 1]
  ∧ title <$> (run clear_then_create (construct empty_storage)).2
    = ["A"; "B"].
Proof. split; reflexivity. Qed.

(** Over a persisted event with id 2^53 the counter starts at 2^53, the
    id that is taken, and stays there: adding 1 to 2^53 gives 2^53. *)
Example id_reused_at_2_53 :
  nextId (construct storage_at_2_53) = 2 ^ 53
  ∧ id <$> events (run [Create "t1" event_A; Create "t2" event_B]
                     (construct storage_at_2_53)).1
    = [2 ^ 53; 2 ^ 53; 2 ^ 53].
Proof. split; reflexivity. Qed.

(** C5, as the code has it.  Ids are Numbers, and adding 1 is exact up
    to 2^53; the statement is about persisted collections whose ids are
    from -2^53 on and sequences of calls short enough for the counter to
    stay at or below 2^53.  The counter of a new instance is 1 over an
    empty collection and one more than the largest id otherwise.  Over a
    persisted collection with distinct ids, every sequence of create,
    update, delete, [clearAllEvents] and reconstruction keeps the ids of
    the collection pairwise distinct.  Within the lifetime of one
    instance (no reconstruction in the sequence) and as long as
    [clearAllEvents] is not called, no id is used twice: the ids of the
    events present at construction and of the events created since are
    pairwise distinct. *)
Theorem ids_distinct_and_fresh_within_lifetime ls ops :
  NoDup (id <$> loadEvents ls) →
  within_safe_integers (loadEvents ls) (length ops) →
  ((loadEvents ls = [] ∧ nextId (construct ls) = 1)
   ∨ (∃ e, e ∈ loadEvents ls ∧ nextId (construct ls) = id e + 1
           ∧ ∀ e', e' ∈ loadEvents ls → id e' ≤ id e))
  ∧ NoDup (id <$> events (run ops (construct ls)).1)
  ∧ (same_lifetime ops → never_cleared ops →
     NoDup (id <$> (events (construct ls) ++ (run ops (construct ls)).2))).
Proof.
  intros Hnd Hsafe.
  destruct (construct_consistent ls (length ops) Hnd Hsafe) as [Hc Hh].
  split_and!.
  - apply getNextId_seed. intros e He.
    destruct Hsafe as [? Hb]. specialize (Hb e He). lia.
  - by apply (run_consistent ops _ (Z.of_nat (length ops))).
  - intros Hl Hl'.
    destruct (run_fresh ops (construct ls) (Z.of_nat (length ops)) Hl Hl' Hc Hh)
      as (_ & Hcr & Hr); [lia|].
    rewrite fmap_app. apply NoDup_app. split_and!; [apply Hc | | done].
    intros k (e & -> & He)%list_elem_of_fmap (e' & Hk & He')%list_elem_of_fmap.
    pose proof (ids_below_counter _ Hc e He). specialize (Hr e' He'). lia.
Qed.

Lemma ids_distinct_and_fresh_within_lifetime_witness :
  NoDup (id <$> events (run delete_highest_same_lifetime
                          (construct empty_storage)).1)
  ∧ NoDup (id <$> (events (construct empty_storage)
                   ++ (run delete_highest_same_lifetime
                         (construct empty_storage)).2)).
Proof.
  destruct (ids_distinct_and_fresh_within_lifetime empty_storage
              delete_highest_same_lifetime) as (_ & H1 & H2).
  - simpl. apply NoDup_nil_2.
  - split; [simpl; lia|]. simpl. by intros e ?%elem_of_nil.
  - split; [exact H1|].
    apply H2; unfold same_lifetime, never_cleared, delete_highest_same_lifetime;
      rewrite !not_elem_of_cons; split_and!; try discriminate;
      apply not_elem_of_nil.
Defined.

End EventProps.

(** ** Properties of AuthModel *)

Module AuthProps.
Import AuthModel AuthSpec Facts.

(** *** The session of a successful login *)

Lemma sessionUser_dom user now :
  dom (sessionUser user now)
  = list_to_set (public_fields ++ ["lastLogin"; "loginTime"]).
Proof.
  unfold sessionUser. rewrite !dom_insert_L, dom_singleton_L. simpl.
  set_solver.
Qed.

Lemma sessionUser_lookup user now k :
  k ∈ public_fields → sessionUser user now !! k = Some (get user k).
Proof.
  unfold public_fields. rewrite !elem_of_cons.
  intros [-> | [-> | [-> | [-> | [-> | [-> | H]]]]]];
    [reflexivity.. | by apply elem_of_nil in H].
Qed.

(** The shape of a successful [authenticate]. *)
Lemma authenticate_success now1 now2 username password st session st' :
  authenticate now1 now2 username password st = (Return (Some session), st') →
  ∃ index user,
    users st !! index = Some user
    ∧ credentials_match username password user = Return true
    ∧ session = sessionUser (<["lastLogin" := VStr now1]> user) now2
    ∧ users st' = alter (<["lastLogin" := VStr now1]>) index (users st)
    ∧ currentUser st' = Some session
    ∧ ∀ j other, (j < index)%nat → users st !! j = Some other →
        credentials_match username password other = Return false.
Proof.
  unfold authenticate.
  destruct (negb (truthy username) || negb (truthy password)); [done|].
  unfold bind, read, lift; simpl.
  destruct (find_throwing _ (users st)) as [[[index user]|]|e] eqn:Hf;
    [|done..].
  pose proof (find_throwing_first _ _ _ _ Hf) as Hfirst.
  apply find_throwing_Some in Hf as [Hu Hm].
  unfold set_user_field, saveUsers, saveCurrentUser, modify, ret; simpl.
  intros [= <- <-]. by exists index, user.
Qed.

(** The callback of [find] in [authenticate] on string arguments and an
    account whose username is a string. *)
Lemma credentials_match_spec username password u :
  is_string (get u "username") →
  credentials_match (VStr username) (VStr password) u
  = Return (has_username username u && has_password password u
            && negb (deactivated u)).
Proof.
  intros [s Hs]. unfold credentials_match, has_username. rewrite Hs. simpl.
  reflexivity.
Qed.

(** An account on which the callback answers [true] has a string as its
    username. *)
Lemma credentials_match_string username password u b :
  credentials_match username password u = Return b →
  is_string (get u "username").
Proof.
  unfold credentials_match. destruct (get u "username"); try done.
  by eexists.
Qed.

(** C3. The session object that a successful [authenticate] returns has
    exactly the keys [id], [username], [role], [email], [fullName],
    [phone], [lastLogin] and [loginTime]; it has no [password] key.  Its
    fields are those of the account that matched the credentials: the
    first account of the collection on which the test of [authenticate]
    holds (for string arguments: the username is the given one up to case
    and surrounding white space, the password is the given one, the
    account is not deactivated).  The call stamps [lastLogin] on that
    account; the six public fields and [lastLogin] of the session are
    those of the account as the call leaves it, [loginTime] is the time of
    the call, and the session returned is the current session. *)
Theorem authenticate_session_has_no_password
    now1 now2 username password st session st' :
  authenticate now1 now2 username password st = (Return (Some session), st') →
  dom session = list_to_set (public_fields ++ ["lastLogin"; "loginTime"])
  ∧ session !! "password" = None
  ∧ ∃ index user account,
      users st !! index = Some user
      ∧ credentials_match username password user = Return true
      ∧ (∀ j other, (j < index)%nat → users st !! j = Some other →
           credentials_match username password other = Return false)
      ∧ (∀ name pw, username = VStr name → password = VStr pw →
           has_username name user = true ∧ has_password pw user = true
           ∧ deactivated user = false)
      ∧ account = <["lastLogin" := VStr now1]> user
      ∧ users st' = <[index := account]> (users st)
      ∧ (∀ k, k ∈ public_fields → get account k = get user k)
      ∧ (∀ k, k ∈ public_fields ++ ["lastLogin"] →
           session !! k = Some (get account k))
      ∧ get account "lastLogin" = VStr now1
      ∧ session !! "loginTime" = Some (VStr now2)
      ∧ currentUser st' = Some session.
Proof.
  intros (index & user & Hu & Hm & -> & Hus & Hc & Hfirst)%authenticate_success.
  assert (get (<["lastLogin" := VStr now1]> user) "lastLogin" = VStr now1)
    as Hlast by (unfold get; by rewrite lookup_insert_eq).
  assert (∀ k, k ∈ public_fields →
            get (<["lastLogin" := VStr now1]> user) k = get user k) as Hpub.
  { intros k Hk. unfold get. rewrite lookup_insert_ne; [done|].
    intros <-. revert Hk. unfold public_fields. rewrite !elem_of_cons.
    intros [? | [? | [? | [? | [? | [? | H]]]]]];
      [discriminate.. | by apply elem_of_nil in H]. }
  split_and!.
  - apply sessionUser_dom.
  - reflexivity.
  - exists index, user, (<["lastLogin" := VStr now1]> user).
    split_and!; [done | done | done | | done | | done | | done | done | done].
    + intros name pw -> ->.
      rewrite credentials_match_spec in Hm
        by (by eapply credentials_match_string).
      injection Hm as Hm.
      apply andb_true_iff in Hm as [[Hn Hp]%andb_true_iff Ha].
      by apply negb_true_iff in Ha.
    + rewrite Hus. by apply alter_at.
    + intros k [Hk | Hk]%elem_of_app.
      * by apply sessionUser_lookup.
      * apply list_elem_of_singleton in Hk as ->. reflexivity.
Qed.

Lemma three_accounts_well_formed : well_formed three_accounts.
Proof. repeat constructor; eexists; reflexivity. Defined.

Lemma authenticate_session_has_no_password_witness :
  authenticate "t1" "t2" (VStr " Admin ") (VStr "password") logged_out
  = (Return (Some admin_session), admin_logged_in)
  ∧ dom admin_session
    = list_to_set (public_fields ++ ["lastLogin"; "loginTime"])
  ∧ admin_session !! "password" = None
  ∧ get admin_session "username" = VStr "admin"
  ∧ get admin_session "lastLogin" = VStr "t1".
Proof.
  assert (authenticate "t1" "t2" (VStr " Admin ") (VStr "password") logged_out
          = (Return (Some admin_session), admin_logged_in)) as H
    by reflexivity.
  destruct (authenticate_session_has_no_password _ _ _ _ _ _ _ H)
    as (Hd & Hp & _).
  split_and!; [exact H | exact Hd | exact Hp | reflexivity | reflexivity].
Defined.

(** *** Failed logins *)

Lemma failure_cause_no_match us username password :
  well_formed us →
  failure_cause us username password →
  ∀ u, u ∈ us →
       credentials_match (VStr username) (VStr password) u = Return false.
Proof.
  intros Hwf Hc u Hu.
  rewrite credentials_match_spec
    by (eapply (proj1 (Forall_forall _ _) Hwf); exact Hu).
  f_equal. destruct Hc as [Ha | _ Hw | _ Hi].
  - by rewrite (proj1 (Forall_forall _ _) Ha u Hu).
  - pose proof (proj1 (Forall_forall _ _) Hw u Hu) as H. simpl in H.
    destruct (has_username username u); [|done]. by rewrite (H eq_refl).
  - pose proof (proj1 (Forall_forall _ _) Hi u Hu) as H. simpl in H.
    destruct (has_username username u); [|done].
    destruct (has_password password u); [|done].
    by rewrite (H eq_refl eq_refl).
Qed.

Lemma authenticate_failure now1 now2 username password st :
  username ≠ "" → password ≠ "" →
  well_formed (users st) →
  failure_cause (users st) username password →
  authenticate now1 now2 (VStr username) (VStr password) st
  = (Return None, st).
Proof.
  intros Hu Hp Hwf Hc. unfold authenticate.
  rewrite !truthy_nonempty by done. simpl.
  unfold bind, read, lift; simpl.
  by rewrite (find_throwing_None _ _ (failure_cause_no_match _ _ _ Hwf Hc)).
Qed.

(** C2. Two calls of [authenticate] with non-empty arguments, each of
    which fails for one of the three reasons (no account has the name,
    the password is wrong for the name, the account with this name and
    password is deactivated), return the same value, [null], and neither
    changes the store: the result does not tell the reasons apart. *)
Theorem authenticate_failures_indistinguishable
    now1 now1' now2 now2' username1 password1 username2 password2 st1 st2 :
  username1 ≠ "" → password1 ≠ "" → username2 ≠ "" → password2 ≠ "" →
  well_formed (users st1) → well_formed (users st2) →
  failure_cause (users st1) username1 password1 →
  failure_cause (users st2) username2 password2 →
  (authenticate now1 now1' (VStr username1) (VStr password1) st1).1
  = (authenticate now2 now2' (VStr username2) (VStr password2) st2).1
  ∧ authenticate now1 now1' (VStr username1) (VStr password1) st1
    = (Return None, st1)
  ∧ authenticate now2 now2' (VStr username2) (VStr password2) st2
    = (Return None, st2).
Proof.
  intros ?????? Hc1 Hc2.
  rewrite (authenticate_failure now1 now1' username1 password1 st1) by done.
  rewrite (authenticate_failure now2 now2' username2 password2 st2) by done.
  done.
Qed.

Lemma nobody_is_absent : failure_cause three_accounts "nobody" "password".
Proof. apply username_absent. repeat constructor. Defined.

Lemma admin_wrong_password : failure_cause three_accounts "admin" "wrong".
Proof.
  apply password_wrong.
  - apply Exists_cons_hd. reflexivity.
  - repeat constructor; vm_compute; congruence.
Defined.

Lemma carol_is_inactive : failure_cause three_accounts "Carol" "secret1".
Proof.
  apply account_inactive.
  - do 2 apply Exists_cons_tl. apply Exists_cons_hd.
    split; reflexivity.
  - repeat constructor; vm_compute; congruence.
Defined.

Lemma authenticate_failures_indistinguishable_witness :
  (authenticate "t1" "t2" (VStr "admin") (VStr "wrong") logged_out).1
  = (authenticate "t3" "t4" (VStr "Carol") (VStr "secret1") logged_out).1
  ∧ (authenticate "t1" "t2" (VStr "nobody") (VStr "password") logged_out).1
    = (authenticate "t3" "t4" (VStr "Carol") (VStr "secret1") logged_out).1.
Proof.
  split.
  - apply (authenticate_failures_indistinguishable
             "t1" "t2" "t3" "t4" "admin" "wrong" "Carol" "secret1"
             logged_out logged_out);
      try discriminate;
      auto using three_accounts_well_formed, admin_wrong_password,
        carol_is_inactive.
  - apply (authenticate_failures_indistinguishable
             "t1" "t2" "t3" "t4" "nobody" "password" "Carol" "secret1"
             logged_out logged_out);
      try discriminate;
      auto using three_accounts_well_formed, nobody_is_absent,
        carol_is_inactive.
Defined.

(** *** Seeding *)

Lemma json_defaultUsers now1 now2 :
  json_object <$> defaultUsers now1 now2 = defaultUsers now1 now2.
Proof. reflexivity. Qed.

Lemma loadUsers_saved now1 now2 ls saved :
  item_users ls = Some saved → loadUsers now1 now2 ls = (saved, ls).
Proof. intros H. unfold loadUsers. by rewrite H. Qed.

(** C7. Loading the accounts seeds if and only if storage holds no user
    collection.  The seed is two accounts, 'admin' with role admin and
    'user' with role user, with the fixed passwords.  Over a persisted
    collection, the empty one included, the collection is returned as it
    is and storage is not written.  After a load, storage holds a
    collection, so no later load seeds; a load after a seeding load
    returns the two accounts that the first one wrote. *)
Theorem loadUsers_seeds_only_without_collection now1 now2 ls :
  (seeds now1 now2 ls ↔ item_users ls = None)
  ∧ (λ u, (get u "username", get u "password", get u "role"))
      <$> defaultUsers now1 now2
    = [ (VStr "admin", VStr "password", VStr "admin");
        (VStr "user", VStr "123456", VStr "user") ]
  ∧ (∀ saved, item_users ls = Some saved →
       loadUsers now1 now2 ls = (saved, ls))
  ∧ (item_users ls = Some [] → loadUsers now1 now2 ls = ([], ls))
  ∧ (∀ now3 now4, ¬ seeds now3 now4 (loadUsers now1 now2 ls).2)
  ∧ (∀ now3 now4,
       loadUsers now3 now4 (loadUsers now1 now2 ls).2
       = ((loadUsers now1 now2 ls).1, (loadUsers now1 now2 ls).2)).
Proof.
  pose proof (loadUsers_saved now1 now2 ls) as Hsaved.
  assert (∃ l, item_users (loadUsers now1 now2 ls).2 = Some l
               ∧ (loadUsers now1 now2 ls).1 = l) as (l & Hl & Hl1).
  { unfold loadUsers. destruct (item_users ls) as [saved|] eqn:H.
    - by exists saved.
    - exists (defaultUsers now1 now2). split; [|done].
      transitivity (Some (json_object <$> defaultUsers now1 now2));
        [reflexivity | by rewrite json_defaultUsers]. }
  split_and!.
  - split.
    + intros [_ Hne]. destruct (item_users ls) as [saved|]; [|done].
      rewrite (Hsaved saved eq_refl) in Hne. by destruct Hne.
    + intros H. unfold seeds, loadUsers. rewrite H. split; [done|].
      simpl. intros Heq. rewrite <- Heq in H. discriminate.
  - reflexivity.
  - exact Hsaved.
  - apply Hsaved.
  - intros now3 now4 [_ Hne]. apply Hne.
    by rewrite (loadUsers_saved _ _ _ _ Hl).
  - intros now3 now4. by rewrite (loadUsers_saved _ _ _ _ Hl), Hl1.
Qed.

(** *** Password change *)

(** C9. [changePassword] checks in this order.  Without a session it
    throws.  With a session, if the stored password of the session's
    account differs from [current], it throws the authentication error,
    whatever [next] is.  If [current] matches and [next] is shorter than 6
    characters, it throws the validation error; so a [next] shorter than
    6 characters always makes the call throw.  If [current] matches and
    [next] has at least 6 characters, it returns [true], the account in
    memory holds [next] as its password and nothing else is changed: the
    other accounts, the session and storage are as before. *)
Theorem changePassword_checks current next st :
  (currentUser st = None →
   changePassword current (VStr next) st = (Throw not_authenticated, st))
  ∧ (∀ index u, session_account st index u →
       get u "password" ≠ current →
       changePassword current (VStr next) st
       = (Throw authentication_error, st))
  ∧ (∀ index u, session_account st index u →
       get u "password" = current →
       (String.length next < 6)%nat →
       changePassword current (VStr next) st = (Throw validation_error, st))
  ∧ (∀ index u, session_account st index u →
       (String.length next < 6)%nat →
       ∃ e, changePassword current (VStr next) st = (Throw e, st))
  ∧ (∀ index u, session_account st index u →
       get u "password" = current →
       (6 ≤ String.length next)%nat →
       changePassword current (VStr next) st
       = (Return true,
          mkState (<[index := <["password" := VStr next]> u]> (users st))
            (currentUser st) (nextUserId st) (storage st))).
Proof.
  assert (∀ index u, session_account st index u →
            changePassword current (VStr next) st
            = if negb (strict_eq (get u "password") current)
              then (Throw authentication_error, st)
              else if negb (truthy (VStr next)) || length_lt (VStr next) 6
              then (Throw validation_error, st)
              else (Return true,
                    mkState (alter (<["password" := VStr next]>) index
                               (users st))
                      (currentUser st) (nextUserId st) (storage st)))
    as Hrun.
  { intros index u (session & Hs & Hi & Hu).
    unfold changePassword, bind, read. rewrite Hs, Hi, Hu.
    cbn [from_option]. unfold Datatypes.id.
    destruct (negb (strict_eq (get u "password") current)); [done|].
    destruct (negb (truthy (VStr next)) || length_lt (VStr next) 6); [done|].
    unfold set_user_field, modify, ret. simpl. by rewrite ?Hs. }
  assert (∀ index u, session_account st index u →
            alter (<["password" := VStr next]>) index (users st)
            = <[index := <["password" := VStr next]> u]> (users st))
    as Halter.
  { intros index u (_ & _ & _ & Hu). apply list_eq. intros j.
    destruct (decide (j = index)) as [-> | Hne].
    - rewrite list_lookup_alter_eq, Hu. simpl. symmetry.
      apply list_lookup_insert_eq. by eapply lookup_lt_Some.
    - by rewrite list_lookup_alter_ne, list_lookup_insert_ne. }
  assert (∀ n, (String.length next < n)%nat → length_lt (VStr next) n = true)
    as Hshort by (intros n Hn; simpl; by apply Nat.ltb_lt).
  split_and!.
  - intros Hs. unfold changePassword, bind, read; simpl. by rewrite Hs.
  - intros index u Hacc Hne. rewrite (Hrun index u Hacc).
    unfold strict_eq. by rewrite bool_decide_eq_false_2.
  - intros index u Hacc Heq Hlen. rewrite (Hrun index u Hacc).
    unfold strict_eq. rewrite bool_decide_eq_true_2 by done. simpl negb at 1.
    cbv iota. by rewrite (Hshort 6%nat Hlen), orb_true_r.
  - intros index u Hacc Hlen. rewrite (Hrun index u Hacc).
    destruct (negb (strict_eq (get u "password") current)); [by eexists|].
    rewrite (Hshort 6%nat Hlen), orb_true_r. by eexists.
  - intros index u Hacc Heq Hlen. rewrite (Hrun index u Hacc).
    unfold strict_eq. rewrite bool_decide_eq_true_2 by done. simpl negb at 1.
    cbv iota. rewrite (Halter index u Hacc).
    assert (length_lt (VStr next) 6 = false) as ->
      by (simpl; apply Nat.ltb_ge; lia).
    assert (truthy (VStr next) = true) as ->; [|done].
    apply truthy_nonempty. intros ->. simpl in Hlen. lia.
Qed.

(** A new password of three characters given together with a wrong
    current password, in an active session: the call fails with the
    error for the current password, not with the one for the new
    password. *)
Lemma changePassword_short_next_wrong_current :
  isAuthenticated admin_logged_in = true
  ∧ (String.length "abc" < 6)%nat
  ∧ changePassword (VStr "wrong") (VStr "abc") admin_logged_in
    = (Throw authentication_error, admin_logged_in)
  ∧ authentication_error ≠ validation_error.
Proof. split_and!; [reflexivity | simpl; lia | reflexivity | discriminate]. Qed.

(** Each branch of [changePassword] on a concrete store. *)
Example changePassword_runs :
  changePassword (VStr "password") (VStr "hunter22") logged_out
  = (Throw not_authenticated, logged_out)
  ∧ changePassword (VStr "wrong") (VStr "hunter22") admin_logged_in
    = (Throw authentication_error, admin_logged_in)
  ∧ changePassword (VStr "password") (VStr "abc") admin_logged_in
    = (Throw validation_error, admin_logged_in)
  ∧ (changePassword (VStr "password") (VStr "hunter22") admin_logged_in).1
    = Return true
  ∧ (λ u, get u "password")
      <$> users (changePassword (VStr "password") (VStr "hunter22")
                   admin_logged_in).2 !! 0%nat
    = Some (VStr "hunter22")
  ∧ storage (changePassword (VStr "password") (VStr "hunter22")
               admin_logged_in).2
    = storage admin_logged_in.
Proof. split_and!; reflexivity. Qed.

(** *** Registration with a name or an address that is taken *)

Lemma same_lowercase_strings k s u :
  is_string (get u k) →
  same_lowercase k (VStr s) u = Return (holds k s u).
Proof. intros [t H]. unfold same_lowercase, holds. by rewrite H. Qed.

Lemma is_string_dec v : is_string v ∨ ¬ is_string v.
Proof.
  destruct v; [right; intros [? ?]; discriminate .. | left; by eexists].
Qed.

Lemma same_lowercase_not_string k v u :
  ¬ is_string v → same_lowercase k v u = Throw TypeError.
Proof.
  intros Hv. unfold same_lowercase.
  destruct (get u k); simpl; try done.
  destruct v; simpl; try done. destruct Hv. by eexists.
Qed.

Lemma well_formed_field us k u :
  well_formed us → k = "username" ∨ k = "email" → u ∈ us →
  is_string (get u k).
Proof.
  intros Hwf Hk Hu.
  destruct (proj1 (Forall_forall _ _) Hwf u Hu) as [Hn He].
  by destruct Hk as [-> | ->].
Qed.

(** On well-formed accounts the search never throws, and it finds an
    account exactly when the given string collides. *)
Lemma find_same_lowercase us k s :
  well_formed us → k = "username" ∨ k = "email" →
  (collides k s us ∧
   ∃ i u, find_throwing (same_lowercase k (VStr s)) us = Return (Some (i, u)))
  ∨ (¬ collides k s us ∧
     find_throwing (same_lowercase k (VStr s)) us = Return None).
Proof.
  intros Hwf Hk.
  assert (∀ u, u ∈ us → same_lowercase k (VStr s) u = Return (holds k s u))
    as Hrun.
  { intros u Hu. apply same_lowercase_strings.
    by apply (well_formed_field us). }
  destruct (decide (collides k s us)) as [Hc | Hc].
  - left. split; [done|]. apply find_throwing_found.
    + intros u Hu. rewrite (Hrun u Hu). by eexists.
    + apply Exists_exists in Hc as (u & Hu & Hh).
      exists u. split; [done|]. by rewrite (Hrun u Hu), Hh.
  - right. split; [done|]. apply find_throwing_None. intros u Hu.
    rewrite (Hrun u Hu). f_equal. apply not_true_is_false. intros Hh.
    apply Hc, Exists_exists. by exists u.
Qed.

(** A taken username or a taken email makes [registerUser] throw before
    it has changed anything. *)
Lemma registerUser_collision_throws now userData st k s :
  well_formed (users st) →
  k = "username" ∨ k = "email" →
  get userData k = VStr s →
  collides k s (users st) →
  ∃ e, registerUser now userData st = (Throw e, st).
Proof.
  intros Hwf Hk Hs Hc. unfold registerUser. cbv zeta.
  destruct (negb (truthy (get userData "username")) || _ || _ || _);
    [by eexists|].
  destruct (length_lt (get userData "username") 3); [by eexists|].
  destruct (negb (username_regex _)); [by eexists|].
  rewrite bind_read, bind_lift.
  destruct (is_string_dec (get userData "username")) as [[name Hn] | Hn].
  - rewrite Hn.
    destruct (find_same_lowercase (users st) "username" name Hwf)
      as [[_ (i & u & ->)] | [Hnc ->]]; [by left | by eexists |].
    cbn [bool_decide decide_rel is_Some_dec]. cbv beta iota.
    destruct Hk as [-> | ->].
    { rewrite Hn in Hs. injection Hs as ->. done. }
    rewrite bind_lift, Hs.
    destruct (find_same_lowercase (users st) "email" s Hwf)
      as [[_ (i & u & ->)] | [Hnc' _]]; [by right | by eexists | done].
  - destruct (users st) as [|u us]; [by apply Exists_nil in Hc|].
    rewrite (find_throwing_first_throws _ _ _ TypeError); [by eexists|].
    by apply same_lowercase_not_string.
Qed.

Lemma passes_earlier_checks_guards userData :
  passes_earlier_checks userData = true →
  negb (truthy (get userData "username"))
  || negb (truthy (get userData "password"))
  || negb (truthy (get userData "email"))
  || negb (truthy (get userData "fullName")) = false
  ∧ length_lt (get userData "username") 3 = false
  ∧ negb (username_regex (toString (get userData "username"))) = false.
Proof.
  unfold passes_earlier_checks. rewrite !andb_true_iff.
  intros [[[[[-> ->] ->] ->] Hl] ->]. split_and!; [done | | done].
  by destruct (length_lt (get userData "username") 3).
Qed.

(** What [registerUser] answers to an input that passes the earlier
    checks and whose username or email is taken. *)
Lemma registerUser_collision_reported now userData st name :
  well_formed (users st) →
  passes_earlier_checks userData = true →
  get userData "username" = VStr name →
  (collides "username" name (users st) →
   registerUser now userData st = (Throw username_exists, st))
  ∧ (∀ mail, get userData "email" = VStr mail →
       ¬ collides "username" name (users st) →
       collides "email" mail (users st) →
       registerUser now userData st = (Throw email_registered, st)).
Proof.
  intros Hwf (Hg1 & Hg2 & Hg3)%passes_earlier_checks_guards Hn.
  unfold registerUser. cbv zeta. rewrite Hg1, Hg2, Hg3.
  rewrite bind_read, bind_lift, Hn.
  destruct (find_same_lowercase (users st) "username" name Hwf)
    as [[Hc (i & u & ->)] | [Hnc ->]]; [by left | |].
  { split; [done|]. by intros mail _ Hnc _. }
  split; [done|]. intros mail Hm _ Hc.
  cbn [bool_decide decide_rel is_Some_dec]. cbv beta iota.
  rewrite bind_lift, Hm.
  destruct (find_same_lowercase (users st) "email" mail Hwf)
    as [[_ (i & u & ->)] | [Hnc' _]]; [by right | done | done].
Qed.

(** The username 'Admin' is taken by the default account 'admin', but
    the input has an empty password: the error is the one for missing
    fields, which names neither the username nor the email as taken. *)
Lemma registerUser_taken_name_reported_as_missing_field :
  collides "username" "Admin" (users logged_out)
  ∧ registerUser "t5" taken_name_no_password logged_out
    = (Throw missing_required, logged_out)
  ∧ missing_required ≠ username_exists
  ∧ missing_required ≠ email_registered.
Proof.
  split_and!; [| reflexivity | discriminate..].
  apply Exists_cons_hd. reflexivity.
Qed.

(** C4, as the code has it.  Over well-formed accounts, a registration
    whose username or email is taken, in any case variant, throws and
    leaves the store (collection, session, counter and storage) as it
    was.  When the input passes the checks made before the search (the
    four required fields are non-empty, the username has three characters
    or more, all letters, digits or underscores), the error names the
    field: 'Username already exists' if the username is taken, 'Email
    address already registered' if the email is taken and the username is
    not; the two errors differ. *)
Theorem registerUser_taken_name_or_email now userData st :
  well_formed (users st) →
  (∀ k s, k = "username" ∨ k = "email" →
     get userData k = VStr s → collides k s (users st) →
     ∃ e, registerUser now userData st = (Throw e, st))
  ∧ (∀ name, passes_earlier_checks userData = true →
       get userData "username" = VStr name →
       collides "username" name (users st) →
       registerUser now userData st = (Throw username_exists, st))
  ∧ (∀ name mail, passes_earlier_checks userData = true →
       get userData "username" = VStr name →
       get userData "email" = VStr mail →
       ¬ collides "username" name (users st) →
       collides "email" mail (users st) →
       registerUser now userData st = (Throw email_registered, st))
  ∧ username_exists ≠ email_registered.
Proof.
  intros Hwf. split_and!.
  - intros k s Hk Hs Hc.
    by apply (registerUser_collision_throws now userData st k s).
  - intros name Hp Hn.
    by apply (registerUser_collision_reported now userData st name).
  - intros name mail Hp Hn Hm.
    by apply (registerUser_collision_reported now userData st name).
  - discriminate.
Qed.

Lemma registerUser_taken_name_or_email_witness :
  registerUser "t5" taken_name logged_out = (Throw username_exists, logged_out)
  ∧ registerUser "t5" taken_email logged_out
    = (Throw email_registered, logged_out).
Proof.
  split.
  - destruct (registerUser_taken_name_or_email "t5" taken_name logged_out
                three_accounts_well_formed) as (_ & H & _).
    apply (H "ADMIN"); [reflexivity.. |].
    apply Exists_cons_hd. reflexivity.
  - destruct (registerUser_taken_name_or_email "t5" taken_email logged_out
                three_accounts_well_formed) as (_ & _ & H & _).
    apply (H "alice123" "User@EventManager.com");
      [reflexivity.. | |].
    + intros Hc. repeat (apply Exists_cons in Hc as [Hc | Hc];
                         [vm_compute in Hc; discriminate|]).
      by apply Exists_nil in Hc.
    + apply Exists_cons_tl, Exists_cons_hd. reflexivity.
Defined.

(** A registration that is accepted, for comparison. *)
Example registerUser_accepts :
  let userData : gmap string val :=
    {[ "username" := VStr "alice123"; "password" := VStr "secret1";
       "email" := VStr "a@x.com"; "fullName" := VStr "Alice A" ]} in
  let profile :=
    without_password
      (new_account "t5" userData 4 "alice123" "a@x.com" "Alice A" "") in
  (registerUser "t5" userData logged_out).1 = Return profile
  ∧ get profile "role" = VStr "user"
  ∧ get profile "isActive" = VBool true
  ∧ profile !! "password" = None
  ∧ length (users (registerUser "t5" userData logged_out).2) = 4%nat.
Proof. cbv zeta. split_and!; reflexivity. Qed.

(** *** Profile update *)

(** C8. The account is looked up with [parseInt(userId)], but the test
    that decides whether the session is refreshed compares the session's
    id with [userId] itself.  Addressed as the string '2', the account
    with id 2 is updated, the returned profile and the stored account
    carry the new name, and the session, which belongs to this account,
    is left with the old name.  Addressed as the number 2, the session is
    refreshed. *)
Theorem updateUserProfile_string_id_keeps_stale_session :
  (λ s, get s "id") <$> currentUser user_logged_in = Some (VNum 2)
  ∧ (λ p, get p "fullName")
      <$> match (updateUserProfile "t5" (VStr "2") new_full_name
                   user_logged_in).1 with
          | Return profile => Some profile
          | Throw _ => None
          end
    = Some (VStr "Demo User II")
  ∧ (λ u, (get u "id", get u "fullName"))
      <$> users (updateUserProfile "t5" (VStr "2") new_full_name
                   user_logged_in).2 !! 1%nat
    = Some (VNum 2, VStr "Demo User II")
  ∧ currentUser (updateUserProfile "t5" (VStr "2") new_full_name
                   user_logged_in).2
    = currentUser user_logged_in
  ∧ (λ s, get s "fullName")
      <$> currentUser (updateUserProfile "t5" (VStr "2") new_full_name
                         user_logged_in).2
    = Some (VStr "Demo User")
  ∧ (λ s, get s "fullName")
      <$> currentUser (updateUserProfile "t5" (VNum 2) new_full_name
                         user_logged_in).2
    = Some (VStr "Demo User II").
Proof. split_and!; reflexivity. Qed.

Lemma check_email_state userId updateData user st r st' :
  check_email userId updateData user st = (r, st') → st' = st.
Proof.
  unfold check_email. cbv zeta.
  destruct (truthy _ && _); [|by intros [= _ <-]].
  rewrite bind_read, bind_lift.
  destruct (find_throwing _ _) as [taken|e]; [|by intros [= _ <-]].
  destruct (bool_decide (is_Some taken)); [by intros [= _ <-]|].
  destruct (negb _); by intros [= _ <-].
Qed.

Lemma check_phone_state updateData st r st' :
  check_phone updateData st = (r, st') → st' = st.
Proof.
  unfold check_phone. cbv zeta.
  destruct (truthy _); [|by intros [= _ <-]].
  rewrite bind_lift.
  destruct (validatePhoneFormat _) as [ok|e]; [|by intros [= _ <-]].
  destruct (negb ok); by intros [= _ <-].
Qed.

Lemma update_field_effect userIndex updateData field st r st' :
  update_field userIndex updateData field st = (r, st') →
  ∃ g, st' = with_users (alter g userIndex) st ∧ writes [field] updateData g.
Proof.
  unfold update_field.
  destruct (strict_eq (get updateData field) VUndef) eqn:Hundef; simpl.
  - intros [= _ <-]. exists (λ u, u). split; [|done].
    unfold with_users. rewrite list_alter_id by done. by destruct st.
  - rewrite bind_lift. destruct (call_trim _) as [trimmed|e].
    + intros [= _ <-]. exists (<[field := VStr trimmed]>). split; [done|].
      intros u k [Hk | Hk].
      * apply lookup_insert_ne. intros ->. apply Hk, list_elem_of_here.
      * apply lookup_insert_ne. intros ->. unfold strict_eq in Hundef.
        by rewrite bool_decide_eq_true_2 in Hundef.
    + intros [= _ <-]. exists (λ u, u). split; [|done].
      unfold with_users. rewrite list_alter_id by done. by destruct st.
Qed.

Lemma forEach_update_effect userIndex updateData fields st r st' :
  forEach (update_field userIndex updateData) fields st = (r, st') →
  ∃ g, st' = with_users (alter g userIndex) st ∧ writes fields updateData g.
Proof.
  revert st. induction fields as [|field fields IH]; intros st; simpl.
  - intros [= _ <-]. exists (λ u, u). split; [|done].
    unfold with_users. rewrite list_alter_id by done. by destruct st.
  - unfold bind at 1.
    destruct (update_field userIndex updateData field st) as [[[]|e] st1]
      eqn:H1; apply update_field_effect in H1 as (g1 & -> & Hg1).
    + intros (g2 & -> & Hg2)%IH. exists (g2 ∘ g1). split.
      * unfold with_users. simpl. by rewrite list_alter_alter_eq.
      * intros u k Hk. simpl. rewrite Hg2, Hg1; [done | |].
        -- destruct Hk as [Hk | Hk]; [left | by right].
           intros ->%list_elem_of_singleton. apply Hk, list_elem_of_here.
        -- destruct Hk as [Hk | Hk]; [left | by right].
           intros Hin. by apply Hk, list_elem_of_further.
    + intros [= _ <-]. exists g1. split; [done|].
      intros u k Hk. apply Hg1. destruct Hk as [Hk | Hk]; [left | by right].
      intros ->%list_elem_of_singleton. apply Hk, list_elem_of_here.
Qed.

(** X17.  A successful [updateUserProfile] rewrites one account, the one
    found with [parseInt(userId)]; on this account only [fullName],
    [email], [phone] and [updatedAt] can differ from before, and of the
    first three only those that the patch defines; [updatedAt] is the time
    of the call; the counter and the other accounts are as before; the
    profile returned is the account without its password.  The session is
    refreshed from the account when its id is strictly equal to [userId],
    and is left as it is otherwise. *)
Lemma updateUserProfile_frame now userId updateData st profile st' :
  updateUserProfile now userId updateData st = (Return profile, st') →
  ∃ index u u',
    findIndex (has_id userId) (users st) = Some index
    ∧ users st !! index = Some u
    ∧ users st' = <[index := u']> (users st)
    ∧ (∀ k, k ∉ ["fullName"; "email"; "phone"; "updatedAt"] →
            u' !! k = u !! k)
    ∧ (∀ k, k ∈ allowedFields → get updateData k = VUndef →
            u' !! k = u !! k)
    ∧ u' !! "updatedAt" = Some (VStr now)
    ∧ profile = without_password u'
    ∧ nextUserId st' = nextUserId st
    ∧ currentUser st'
      = match currentUser st with
        | Some session =>
            if strict_eq (get session "id") userId
            then Some (without_password u' ∪ session)
            else Some session
        | None => None
        end.
Proof.
  unfold updateUserProfile. rewrite bind_read.
  destruct (findIndex (has_id userId) (users st)) as [index|] eqn:Hi; [|done].
  destruct (findIndex_Some _ _ _ Hi) as (u & Hu & _).
  cbv zeta.
  intros (_ & st1 & ->%check_email_state & H)%bind_Return_inv.
  apply bind_Return_inv in H as (_ & st2 & ->%check_phone_state & H).
  apply bind_Return_inv in H as (? & st3 & H3 & H).
  apply forEach_update_effect in H3 as (g & Hst3 & Hg). subst st3.
  unfold set_user_field in H. rewrite bind_modify in H. unfold saveUsers in H. rewrite bind_modify in H.
  unfold with_users in H. cbn [users currentUser nextUserId storage] in H.
  rewrite list_alter_alter_eq in H.
  set (h := <["updatedAt" := VStr now]> ∘ g) in H.
  rewrite (alter_at h _ _ _ Hu) in H.
  assert (<[index := h u]> (users st) !! index = Some (h u)) as Hlook
    by (apply list_lookup_insert_eq; by eapply lookup_lt_Some).
  exists index, u, (h u).
  assert (∀ k, k ∉ ["fullName"; "email"; "phone"; "updatedAt"] →
               h u !! k = u !! k) as Hframe.
  { intros k Hk. unfold h. simpl. rewrite lookup_insert_ne.
    - apply Hg. left. unfold allowedFields. intros Hin. apply Hk.
      revert Hin. rewrite !elem_of_cons. tauto.
    - intros <-. apply Hk. rewrite !elem_of_cons. auto 10. }
  assert (∀ k, k ∈ allowedFields → get updateData k = VUndef →
               h u !! k = u !! k) as Hundef.
  { intros k Hk Hd. unfold h. simpl. rewrite lookup_insert_ne.
    - apply Hg. by right.
    - intros <-. revert Hk. unfold allowedFields. rewrite !elem_of_cons.
      intros [? | [? | [? | H']]]; [discriminate.. | by apply elem_of_nil in H']. }
  assert (h u !! "updatedAt" = Some (VStr now)) as Hstamp
    by (unfold h; simpl; apply lookup_insert_eq).
  unfold refresh_session in H. rewrite bind_assoc, bind_read in H.
  cbn [users currentUser nextUserId storage] in H.
  destruct (currentUser st) as [session|] eqn:Hs.
  - destruct (strict_eq (get session "id") userId).
    + unfold saveCurrentUser in H.
      rewrite bind_modify, bind_read in H.
      cbn [users currentUser nextUserId storage] in H.
      rewrite Hlook in H. injection H as <- <-. simpl.
      by split_and!.
    + rewrite bind_ret, bind_read in H.
      cbn [users currentUser nextUserId storage] in H.
      rewrite Hlook in H. injection H as <- <-. simpl.
      by split_and!.
  - rewrite bind_ret, bind_read in H.
    cbn [users currentUser nextUserId storage] in H.
    rewrite Hlook in H. injection H as <- <-. simpl.
    by split_and!.
Qed.

End AuthProps.

(** ** Further properties of EventModel *)

Module EventLaws.
Import EventModel EventSpec Facts EventProps.

(** *** find *)

Lemma find_cons {A} (p : A → bool) x xs :
  find p (x :: xs) = if p x then Some x else find p xs.
Proof.
  unfold find. simpl. destruct (p x); [done|].
  by destruct (findIndex p xs).
Qed.

Lemma find_app {A} (p : A → bool) xs ys :
  find p (xs ++ ys) = match find p xs with Some x => Some x | None => find p ys end.
Proof.
  induction xs as [|x xs IH]; [done|].
  simpl. rewrite !find_cons. by destruct (p x).
Qed.

Lemma find_None {A} (p : A → bool) xs :
  find p xs = None ↔ ∀ x, x ∈ xs → p x = false.
Proof.
  induction xs as [|x xs IH]; [split; [by intros _ ? ?%elem_of_nil | done]|].
  rewrite find_cons. destruct (p x) eqn:Hx.
  - split; [done|]. intros H.
    specialize (H x (list_elem_of_here _ _)). congruence.
  - rewrite IH. split.
    + intros H y [-> | Hy]%elem_of_cons; auto.
    + intros H y Hy. apply H. by apply list_elem_of_further.
Qed.

Lemma find_Some {A} (p : A → bool) xs x :
  find p xs = Some x → x ∈ xs ∧ p x = true.
Proof.
  induction xs as [|y xs IH]; [done|]. rewrite find_cons.
  destruct (p y) eqn:Hy.
  - intros [= <-]. split; [apply list_elem_of_here | done].
  - intros [Hx Hp]%IH. split; [by apply list_elem_of_further | done].
Qed.

Lemma find_findIndex_None {A} (p : A → bool) xs :
  find p xs = None → findIndex p xs = None.
Proof.
  unfold find. destruct (findIndex p xs) as [i|] eqn:Hi; [|done].
  destruct (findIndex_Some _ _ _ Hi) as (x & -> & _). done.
Qed.

(** Removing or replacing an element that the callback rejects, by one
    that it rejects, does not change what is found. *)
Lemma find_delete {A} (p : A → bool) xs i x :
  xs !! i = Some x → p x = false → find p (delete i xs) = find p xs.
Proof.
  revert i. induction xs as [|y xs IH]; intros [|i] Hi Hx; try done.
  - simpl in Hi. injection Hi as ->. simpl. by rewrite find_cons, Hx.
  - simpl in Hi. simpl. rewrite !find_cons. destruct (p y); [done|].
    by apply IH.
Qed.

Lemma splice1_delete {A} i (xs : list A) : splice1 i xs = delete i xs.
Proof. unfold splice1. by rewrite delete_take_drop. Qed.

(** *** Lookup by id *)

Lemma getEventById_find v st : getEventById v st = find (has_id v) (events st).
Proof. reflexivity. Qed.

Lemma has_id_number n e : has_id (VNum n) e = (id e =? n).
Proof. reflexivity. Qed.

Lemma has_id_other v w e :
  has_id v e = true → parseInt w ≠ parseInt v → has_id w e = false.
Proof.
  unfold has_id. destruct (parseInt v) as [n|]; [|done].
  intros ->%Z.eqb_eq Hne. destruct (parseInt w) as [m|]; [|done].
  apply Z.eqb_neq. congruence.
Qed.

(** X1.  An id that addresses no event:  [updateEvent] and [deleteEvent]
    return [null] and change nothing.  [updateEvent] does so before it
    looks at the input, so it does not throw even when the input is
    invalid.  An id that [parseInt] does not read as a number addresses no
    event. *)
Theorem absent_id_changes_nothing now v eventData st :
  getEventById v st = None →
  updateEvent now v eventData st = (Return None, st)
  ∧ deleteEvent v st = (Return None, st).
Proof.
  intros Hf%find_findIndex_None.
  unfold updateEvent, deleteEvent. rewrite !bind_read, Hf. done.
Qed.

Lemma absent_id_changes_nothing_witness :
  updateEvent "t" (VStr "abc") ∅ one_event_store
  = (Return None, one_event_store)
  ∧ deleteEvent (VNum 7) one_event_store = (Return None, one_event_store).
Proof.
  split.
  - apply (absent_id_changes_nothing "t" (VStr "abc") ∅ one_event_store).
    reflexivity.
  - apply (absent_id_changes_nothing "t" (VNum 7) ∅ one_event_store).
    reflexivity.
Defined.

Lemma not_a_number_finds_nothing v st :
  parseInt v = None → getEventById v st = None.
Proof.
  intros Hv. rewrite getEventById_find. apply find_None. intros e _.
  unfold has_id. by rewrite Hv.
Qed.

(** X2.  Over a collection whose ids are all different from the counter,
    the event that [addEvent] returns is the one that [getEventById] finds
    under the new id (a Number below 10^21, which [parseInt] reads back
    from its decimal numeral); the count grows by one; every other id finds
    what it found before. *)
Theorem addEvent_then_getEventById now eventData st event st' :
  Z.abs (nextId st) < 10 ^ 21 →
  (∀ e, e ∈ events st → id e ≠ nextId st) →
  addEvent now eventData st = (Return event, st') →
  id event = nextId st
  ∧ getEventById (VNum (id event)) st' = Some event
  ∧ getEventCount st' = S (getEventCount st)
  ∧ ∀ v, parseInt v ≠ Some (nextId st) →
         getEventById v st' = getEventById v st.
Proof.
  intros _ Hfresh Hadd.
  destruct (addEvent_effect now eventData st)
    as [H | [H | (event' & Hid & H)]]; rewrite H in Hadd; try done.
  injection Hadd as <- <-. rewrite !getEventById_find.
  unfold getEventCount. cbn [events]. split_and!; [done | | | ].
  - rewrite find_app.
    assert (find (has_id (VNum (id event'))) (events st) = None) as ->.
    { apply find_None. intros e He. rewrite has_id_number.
      apply Z.eqb_neq. rewrite Hid. by apply Hfresh. }
    by rewrite find_cons, has_id_number, Z.eqb_refl.
  - rewrite length_app. simpl. lia.
  - intros v Hv. rewrite !getEventById_find. cbn [events]. rewrite find_app.
    destruct (find (has_id v) (events st)); [done|].
    rewrite find_cons. unfold has_id at 1.
    destruct (parseInt v) as [n|]; [|done].
    assert ((id event' =? n) = false) as ->; [|done].
    apply Z.eqb_neq. congruence.
Qed.

Lemma addEvent_then_getEventById_witness :
  ∃ event st',
    addEvent "t" sample_input one_event_store = (Return event, st')
    ∧ getEventById (VNum (id event)) st' = Some event
    ∧ getEventCount st' = 2%nat.
Proof.
  destruct (addEvent "t" sample_input one_event_store) as [r st'] eqn:H.
  assert (∃ event, r = Return event) as [event ->]
    by (vm_compute in H; injection H as <- _; by eexists).
  exists event, st'. split; [done|].
  destruct (addEvent_then_getEventById "t" sample_input one_event_store
              event st') as (_ & Hg & Hc & _); [| | exact H | by split].
  - vm_compute. reflexivity.
  - intros e He. vm_compute in He.
    apply elem_of_cons in He as [-> | He]; [vm_compute; discriminate|].
    by apply elem_of_nil in He.
Defined.

(** *** Deletion *)

Lemma deleteEvent_Some v st e st' :
  deleteEvent v st = (Return (Some e), st') →
  ∃ index,
    findIndex (has_id v) (events st) = Some index
    ∧ events st !! index = Some e
    ∧ st' = mkState (delete index (events st)) (nextId st)
              (setItem_events (delete index (events st)) (storage st)).
Proof.
  unfold deleteEvent. rewrite bind_read.
  destruct (findIndex (has_id v) (events st)) as [index|] eqn:Hi; [|done].
  rewrite bind_modify. unfold saveEvents. rewrite bind_modify.
  cbn [events nextId storage]. rewrite splice1_delete.
  intros [= He <-]. by exists index.
Qed.

Lemma NoDup_fmap_lookup_ne {A B} (f : A → B) (l : list A) i j x y :
  NoDup (f <$> l) → l !! i = Some x → l !! j = Some y → i ≠ j → f x ≠ f y.
Proof.
  intros Hnd Hi Hj Hne Heq. apply Hne.
  apply (NoDup_lookup (f <$> l) i j (f x)); [done | |].
  - by rewrite list_lookup_fmap, Hi.
  - by rewrite list_lookup_fmap, Hj, Heq.
Qed.

Lemma elem_of_delete_lookup {A} (l : list A) i x :
  x ∈ delete i l → ∃ j, j ≠ i ∧ l !! j = Some x.
Proof.
  intros (k & Hk)%list_elem_of_lookup_1.
  destruct (decide (k < i)%nat).
  - exists k. split; [lia|]. by rewrite list_lookup_delete_lt in Hk.
  - exists (S k). split; [lia|]. by rewrite list_lookup_delete_ge in Hk by lia.
Qed.

(** X3.  Over a collection with pairwise distinct ids, a successful
    [deleteEvent] returns the event that [getEventById] found under the id,
    after it the id finds nothing, the count is one less, storage holds the
    remaining events, and every other id finds what it found before. *)
Theorem deleteEvent_then_getEventById v st e st' :
  NoDup (id <$> events st) →
  deleteEvent v st = (Return (Some e), st') →
  getEventById v st = Some e
  ∧ getEventById v st' = None
  ∧ getEventCount st = S (getEventCount st')
  ∧ item_events (storage st') = Some (events st')
  ∧ ∀ w, parseInt w ≠ parseInt v → getEventById w st' = getEventById w st.
Proof.
  intros Hnd (index & Hi & He & ->)%deleteEvent_Some.
  destruct (findIndex_Some _ _ _ Hi) as (e' & He' & Hp & _).
  rewrite He in He'. injection He' as <-.
  unfold getEventCount. cbn [events storage]. split_and!.
  - unfold getEventById. by rewrite Hi.
  - rewrite getEventById_find. cbn [events]. apply find_None.
    intros x (j & Hj & Hx)%elem_of_delete_lookup.
    pose proof (NoDup_fmap_lookup_ne id _ _ _ _ _ Hnd Hx He Hj) as Hne.
    unfold has_id in Hp |- *. destruct (parseInt v) as [n|]; [|done].
    apply Z.eqb_eq in Hp. apply Z.eqb_neq. congruence.
  - rewrite length_delete by (by eexists). apply lookup_lt_Some in He.
    lia.
  - reflexivity.
  - intros w Hw. rewrite !getEventById_find. cbn [events].
    apply (find_delete _ _ _ e He). by apply (has_id_other v).
Qed.

Lemma deleteEvent_then_getEventById_witness :
  ∃ e st',
    deleteEvent (VStr "1") two_event_store = (Return (Some e), st')
    ∧ getEventById (VStr "1") st' = None
    ∧ getEventCount st' = 1%nat.
Proof.
  destruct (deleteEvent (VStr "1") two_event_store) as [r st'] eqn:H.
  assert (∃ e, r = Return (Some e)) as [e ->]
    by (vm_compute in H; injection H as <- _; by eexists).
  exists e, st'. split; [done|].
  destruct (deleteEvent_then_getEventById (VStr "1") two_event_store e st')
    as (_ & Hg & Hc & _); [| exact H |].
  - vm_compute. repeat constructor; rewrite ?elem_of_cons, ?elem_of_nil;
      intuition discriminate.
  - split; [done|].
    assert (getEventCount two_event_store = 2%nat) as H2 by reflexivity.
    rewrite H2 in Hc. by injection Hc as <-.
Defined.

(** *** Failures *)

(** X4.  A throw of [updateEvent] leaves the store as it was.  A throw of
    [addEvent] leaves the collection and storage as they were; it is the
    required-field error, and then the counter is as it was too, or a
    [TypeError] raised by [trim] after the counter has been incremented,
    and then one id is skipped. *)
Theorem failed_write_keeps_the_collection now v eventData st e st' :
  (addEvent now eventData st = (Throw e, st') →
   events st' = events st ∧ storage st' = storage st
   ∧ ((e = all_fields_required ∧ nextId st' = nextId st)
      ∨ (e = TypeError ∧ nextId st' = plus_one (nextId st))))
  ∧ (updateEvent now v eventData st = (Throw e, st') → st' = st).
Proof.
  split.
  - destruct (addEvent_effect now eventData st)
      as [H | [H | (event & _ & H)]]; rewrite H; [| | done].
    + intros [= <- <-]. split_and!; [done..|]. by left.
    + intros [= <- <-]. split_and!; [done..|]. by right.
  - unfold updateEvent. rewrite bind_read.
    destruct (findIndex (has_id v) (events st)) as [index|]; [|done].
    destruct (required_fields_present eventData); simpl;
      [|by intros [= _ <-]].
    destruct (events st !! index) as [old|]; [|done].
    rewrite bind_lift.
    destruct (call_trim (get eventData "title")); [|by intros [= _ <-]].
    rewrite bind_lift.
    destruct (call_trim (get eventData "description"));
      [|by intros [= _ <-]].
    rewrite bind_lift.
    destruct (call_trim (get eventData "location")); [|by intros [= _ <-]].
    done.
Qed.

Lemma failed_write_keeps_the_collection_witness :
  (addEvent "t" (<["title" := VNum 5]> sample_input) one_event_store).1
  = Throw TypeError
  ∧ events (addEvent "t" (<["title" := VNum 5]> sample_input)
              one_event_store).2
    = events one_event_store
  ∧ nextId (addEvent "t" (<["title" := VNum 5]> sample_input)
              one_event_store).2 = 3
  ∧ updateEvent "t" (VNum 1) ∅ one_event_store
    = (Throw all_fields_required, one_event_store).
Proof.
  destruct (addEvent "t" (<["title" := VNum 5]> sample_input)
              one_event_store) as [r st'] eqn:Ha.
  assert (r = Throw TypeError) as ->
    by (vm_compute in Ha; by injection Ha as <- _).
  destruct (updateEvent "t" (VNum 1) ∅ one_event_store) as [r' st''] eqn:Hu.
  assert (r' = Throw all_fields_required) as ->
    by (vm_compute in Hu; by injection Hu as <- _).
  destruct (failed_write_keeps_the_collection "t" (VNum 1)
              (<["title" := VNum 5]> sample_input) one_event_store
              TypeError st') as [H1 _].
  destruct (failed_write_keeps_the_collection "t" (VNum 1) ∅
              one_event_store all_fields_required st'') as [_ H2].
  destruct (H1 Ha) as (He & _ & [[Hd _] | [_ Hn]]); [discriminate|].
  rewrite (H2 Hu). simpl. split_and!; [done | done | | done].
  rewrite Hn. reflexivity.
Defined.

(** *** Reloading *)

Lemma step_in_step o st : in_step st → in_step (step o st).1.
Proof.
  unfold in_step. intros Hst. destruct o as [now d | now v d | v | |]; simpl.
  - by destruct (addEvent_effect now d st)
      as [-> | [-> | (event & Hid & ->)]].
  - by destruct (updateEvent_effect now v d st)
      as [-> | (index & old & event & Ho & Hid & ->)].
  - by destruct (deleteEvent_effect v st) as [-> | (index & ->)].
  - done.
  - done.
Qed.

Lemma run_in_step ops st : in_step st → in_step (run ops st).1.
Proof.
  revert st. induction ops as [|o ops IH]; intros st Hc; simpl; [done|].
  pose proof (step_in_step o st Hc) as Hc1.
  destruct (step o st) as [st1 created1]. specialize (IH st1 Hc1).
  by destruct (run ops st1) as [st2 created2].
Qed.

(** X5.  After any sequence of create, update, delete, [clearAllEvents] and
    reconstruction that starts with a construction, whatever storage held
    at the start, a new instance constructed from storage holds the same
    events in the same order as the instance it replaces, and
    [getEventById] answers every id as before. *)
Theorem reconstruction_restores_the_collection ls ops v :
  events (construct (storage (run ops (construct ls)).1))
  = events (run ops (construct ls)).1
  ∧ getEventById v (construct (storage (run ops (construct ls)).1))
    = getEventById v (run ops (construct ls)).1.
Proof.
  assert (in_step (construct ls)) as H0 by done.
  pose proof (run_in_step ops _ H0) as Hst. unfold in_step in Hst.
  split; [exact Hst|]. unfold getEventById. simpl. by rewrite Hst.
Qed.

(** *** Search *)

Lemma append_cons a s t : String a s +:+ t = String a (s +:+ t).
Proof. reflexivity. Qed.

Lemma toLowerCase_append s t :
  toLowerCase (s +:+ t) = toLowerCase s +:+ toLowerCase t.
Proof.
  induction s as [|a s IH]; [done|].
  rewrite append_cons. simpl. by rewrite IH, append_cons.
Qed.

Lemma starts_with_append t s : starts_with t (t +:+ s) = true.
Proof.
  induction t as [|a t IH]; [done|].
  rewrite append_cons. simpl. by rewrite bool_decide_eq_true_2, IH.
Qed.

Lemma includes_append pre t post : includes (pre +:+ t +:+ post) t = true.
Proof.
  induction pre as [|a pre IH].
  - change ("" +:+ t +:+ post) with (t +:+ post).
    destruct t as [|b t]; [by destruct post|].
    rewrite append_cons. unfold includes; fold includes.
    by rewrite <- append_cons, starts_with_append.
  - rewrite append_cons. unfold includes; fold includes.
    by rewrite IH, orb_true_r.
Qed.

Lemma includes_empty s : includes s "" = true.
Proof. by destruct s. Qed.

(** X6.  [searchEvents] with a string returns, in the order of the
    collection, events of the collection that mention the lowered term; it
    returns every event whose title or description contains the term in any
    mixture of cases; with the empty term it returns the whole collection.
    With a term that is not a string it throws a [TypeError]. *)
Theorem searchEvents_finds_every_case_variant term st :
  (∃ found,
     searchEvents (VStr term) st = Return found
     ∧ found `sublist_of` events st
     ∧ (∀ e, e ∈ found → mentions (toLowerCase term) e = true)
     ∧ (∀ e pre word post,
          e ∈ events st →
          toLowerCase word = toLowerCase term →
          title e = pre +:+ word +:+ post
          ∨ description e = pre +:+ word +:+ post →
          e ∈ found)
     ∧ (term = "" → found = events st))
  ∧ (∀ v, ¬ is_string v → searchEvents v st = Throw TypeError).
Proof.
  split.
  - eexists. split; [reflexivity|]. split_and!.
    + apply sublist_filter.
    + by intros e [He _]%list_elem_of_filter.
    + intros e pre word post He Hw Hin. apply list_elem_of_filter.
      split; [|done]. unfold mentions.
      destruct Hin as [-> | ->];
        rewrite !toLowerCase_append, Hw, includes_append;
        [done | apply orb_true_r].
    + intros ->. simpl. induction (events st) as [|e l IH]; [done|].
      rewrite filter_cons_True; [by rewrite IH|].
      unfold mentions. by rewrite includes_empty.
  - intros v Hv. unfold searchEvents.
    destruct v; try done. destruct Hv. by eexists.
Qed.

(** *** Creators *)

Lemma updateEvent_replaces now v eventData st r st' :
  updateEvent now v eventData st = (r, st') →
  st' = st
  ∨ ∃ index old event,
      events st !! index = Some old
      ∧ id event = id old ∧ createdBy event = createdBy old
      ∧ createdAt event = createdAt old
      ∧ events st' = <[index := event]> (events st)
      ∧ nextId st' = nextId st.
Proof.
  unfold updateEvent. rewrite bind_read.
  destruct (findIndex (has_id v) (events st)) as [index|];
    [|intros [= _ <-]; by left].
  destruct (required_fields_present eventData); simpl;
    [|intros [= _ <-]; by left].
  destruct (events st !! index) as [old|] eqn:Ho;
    [|intros [= _ <-]; by left].
  rewrite bind_lift.
  destruct (call_trim (get eventData "title"));
    [|intros [= _ <-]; by left].
  rewrite bind_lift.
  destruct (call_trim (get eventData "description"));
    [|intros [= _ <-]; by left].
  rewrite bind_lift.
  destruct (call_trim (get eventData "location"));
    [|intros [= _ <-]; by left].
  rewrite bind_modify. unfold saveEvents. rewrite bind_modify.
  intros [= _ <-]. right. eexists index, old, _.
  split_and!; [done | | | | reflexivity | reflexivity]; reflexivity.
Qed.

Lemma filter_insert_alike {A B} (P : A → Prop) `{!∀ x, Decision (P x)}
    (f : A → B) (l : list A) i x y :
  l !! i = Some x → (P x ↔ P y) → f x = f y →
  f <$> filter P (<[i := y]> l) = f <$> filter P l.
Proof.
  revert i. induction l as [|z l IH]; intros [|i] Hi HP Hf; try done.
  - simpl in Hi. injection Hi as ->. simpl.
    rewrite !filter_cons. destruct (decide (P y)), (decide (P x));
      [by rewrite !fmap_cons, Hf | tauto | tauto | done].
  - simpl in Hi. simpl. rewrite !filter_cons.
    destruct (decide (P z)); [rewrite !fmap_cons; f_equal|]; by apply IH.
Qed.

Lemma filter_sublist_mono {A} (P : A → Prop) `{!∀ x, Decision (P x)}
    (l k : list A) :
  l `sublist_of` k → filter P l `sublist_of` filter P k.
Proof.
  induction 1 as [|x l k _ IH|x l k _ IH]; [done | |];
    rewrite !filter_cons; destruct (decide (P x)); try done.
  - by apply sublist_skip.
  - by apply sublist_cons.
Qed.

(** X7.  Whatever [updateEvent] does, the events of every creator are the
    same ones, by id and in the same order, after the call as before it: an
    update cannot move an event to another creator.  The events that
    [deleteEvent] leaves to a creator are among those the creator had. *)
Theorem writes_keep_creators now v eventData creator st :
  id <$> getEventsByCreator creator (updateEvent now v eventData st).2
  = id <$> getEventsByCreator creator st
  ∧ getEventsByCreator creator (deleteEvent v st).2
    `sublist_of` getEventsByCreator creator st.
Proof.
  split.
  - destruct (updateEvent now v eventData st) as [r st'] eqn:H.
    apply updateEvent_replaces in H
      as [-> | (index & old & event & Ho & Hid & Hc & _ & He & _)]; [done|].
    unfold getEventsByCreator. simpl. rewrite He.
    apply (filter_insert_alike _ id _ _ old event); [done | | done].
    by rewrite Hc.
  - destruct (deleteEvent_effect v st) as [-> | (index & ->)]; [done|].
    unfold getEventsByCreator. simpl.
    apply filter_sublist_mono, splice1_sublist.
Qed.

(** *** Clearing *)

(** X8.  [clearAllEvents] leaves an empty collection, in memory and in
    storage, under which no id finds an event, and a new instance
    constructed from storage is in the same state.  The counter is back at
    1: the next event created gets id 1, whether or not an earlier event
    had it. *)
Theorem clearAllEvents_restarts_at_one st :
  events (clearAllEvents st).2 = []
  ∧ item_events (storage (clearAllEvents st).2) = Some []
  ∧ construct (storage (clearAllEvents st).2) = (clearAllEvents st).2
  ∧ (∀ v, getEventById v (clearAllEvents st).2 = None)
  ∧ ∀ now eventData event st',
      addEvent now eventData (clearAllEvents st).2 = (Return event, st') →
      id event = 1 ∧ events st' = [event].
Proof.
  split_and!; try reflexivity.
  intros now eventData event st' Hadd.
  destruct (addEvent_effect now eventData (clearAllEvents st).2)
    as [H | [H | (event' & Hid & H)]]; rewrite H in Hadd; try done.
  by injection Hadd as <- <-.
Qed.

(** *** Ids given as strings *)

Lemma digit_value_pretty_char d :
  (d < 10)%N → digit_value 10 (pretty_N_char d) = Some (Z.of_N d).
Proof.
  intros Hd.
  assert (d = 0 ∨ d = 1 ∨ d = 2 ∨ d = 3 ∨ d = 4 ∨ d = 5 ∨ d = 6 ∨ d = 7
          ∨ d = 8 ∨ d = 9)%N as H by lia.
  repeat (destruct H as [-> | H]; [reflexivity|]). by subst d.
Qed.

(** Reading back the digits that [pretty] wrote. *)
Lemma digits_prefix_pretty x :
  ∀ s acc, (0 < x)%N →
    ∃ m, digits_prefix 10 acc (pretty_N_go x s)
         = digits_prefix 10 (Some (default 0 acc * m + Z.of_N x)) s.
Proof.
  induction (N.lt_wf_0 x) as [x _ IH]. intros s acc Hx.
  rewrite pretty_N_go_step by done.
  pose proof (N.mod_lt x 10) as Hmod.
  pose proof (N.div_mod x 10) as Hdiv.
  destruct (decide (x `div` 10 = 0)%N) as [H0 | H0].
  - rewrite H0, pretty_N_go_0. simpl.
    rewrite digit_value_pretty_char by lia. exists 10. do 2 f_equal. lia.
  - destruct (IH (x `div` 10)%N) with
      (s := String (pretty_N_char (x `mod` 10)) s) (acc := acc)
      as [m Hm]; [apply N.div_lt; lia | lia |].
    rewrite Hm. simpl. rewrite digit_value_pretty_char by lia.
    exists (10 * m). do 2 f_equal. simpl. lia.
Qed.

Lemma pretty_leading_digit x :
  ∀ s, (0 < x)%N →
    ∃ d r, (0 < d < 10)%N ∧ pretty_N_go x s = String (pretty_N_char d) r.
Proof.
  induction (N.lt_wf_0 x) as [x _ IH]. intros s Hx.
  rewrite pretty_N_go_step by done.
  pose proof (N.mod_lt x 10) as Hmod.
  pose proof (N.div_mod x 10) as Hdiv.
  destruct (decide (x `div` 10 = 0)%N) as [H0 | H0].
  - rewrite H0, pretty_N_go_0. exists (x `mod` 10)%N, s. split; [lia|done].
  - apply IH; [apply N.div_lt; lia | lia].
Qed.

(** A string that starts with a digit from 1 to 9 is read in base 10 from
    its first character. *)
Lemma parseInt_string_digits d r :
  (0 < d < 10)%N →
  parseInt_string (String (pretty_N_char d) r)
  = to_double <$> digits_prefix 10 None (String (pretty_N_char d) r)
  ∧ parseInt_string (String "-" (String (pretty_N_char d) r))
    = (λ n, to_double (- n))
        <$> digits_prefix 10 None (String (pretty_N_char d) r).
Proof.
  intros Hd.
  assert (d = 1 ∨ d = 2 ∨ d = 3 ∨ d = 4 ∨ d = 5 ∨ d = 6 ∨ d = 7
          ∨ d = 8 ∨ d = 9)%N as H by lia.
  repeat (destruct H as [-> | H];
          [split; unfold parseInt_string; simpl;
           by destruct (digits_prefix 10 _ r)|]).
  subst d. split; unfold parseInt_string; simpl;
    by destruct (digits_prefix 10 _ r).
Qed.

Lemma parseInt_pretty_pos p :
  Z.pos p ≤ 2 ^ 53 →
  parseInt_string (pretty_N_go (N.pos p) "") = Some (Z.pos p)
  ∧ parseInt_string ("-" +:+ pretty_N_go (N.pos p) "") = Some (Z.neg p).
Proof.
  intros Hp.
  destruct (pretty_leading_digit (N.pos p) "") as (d & r & Hd & Hr); [lia|].
  destruct (digits_prefix_pretty (N.pos p) "" None) as [m Hm]; [lia|].
  simpl in Hm. rewrite Hr in Hm |- *.
  destruct (parseInt_string_digits d r Hd) as [H1 H2].
  split.
  - rewrite H1, Hm. simpl. f_equal. apply to_double_exact. lia.
  - change ("-" +:+ String (pretty_N_char d) r)
      with (String "-" (String (pretty_N_char d) r)).
    rewrite H2, Hm. simpl. f_equal. apply to_double_exact. lia.
Qed.

(** [parseInt] reads the decimal numeral of an integer of magnitude up to
    2^53 back as that integer. *)
Lemma parseInt_pretty (n : Z) :
  Z.abs n ≤ 2 ^ 53 → parseInt (VStr (pretty n)) = Some n.
Proof.
  intros Hn. destruct n as [|p|p]; [reflexivity | |]; simpl.
  - apply parseInt_pretty_pos. lia.
  - apply parseInt_pretty_pos. lia.
Qed.

Lemma findIndex_ext {A} (p q : A → bool) xs :
  (∀ x, p x = q x) → findIndex p xs = findIndex q xs.
Proof.
  intros H. induction xs as [|x xs IH]; [done|]. simpl.
  by rewrite H, IH.
Qed.

(** X9.  An event is addressed alike by a number of magnitude up to 2^53
    and by the decimal numeral of that number, as a string:
    [getEventById], [updateEvent] and [deleteEvent] do the same with both. *)
Theorem id_as_decimal_string now n eventData st :
  Z.abs n ≤ 2 ^ 53 →
  getEventById (VStr (pretty n)) st = getEventById (VNum n) st
  ∧ updateEvent now (VStr (pretty n)) eventData st
    = updateEvent now (VNum n) eventData st
  ∧ deleteEvent (VStr (pretty n)) st = deleteEvent (VNum n) st.
Proof.
  intros Hn.
  assert (∀ e, has_id (VStr (pretty n)) e = has_id (VNum n) e) as H.
  { intros e. unfold has_id. by rewrite parseInt_pretty. }
  unfold getEventById, updateEvent, deleteEvent. rewrite !bind_read.
  by rewrite (findIndex_ext _ _ _ H).
Qed.

Lemma id_as_decimal_string_witness :
  getEventById (VStr "2") two_event_store
  = getEventById (VNum 2) two_event_store
  ∧ deleteEvent (VStr "2") two_event_store
    = deleteEvent (VNum 2) two_event_store.
Proof.
  destruct (id_as_decimal_string "t" 2 ∅ two_event_store) as (H1 & _ & H3);
    [lia|].
  split; [exact H1 | exact H3].
Defined.

End EventLaws.

(** ** Further properties of AuthModel *)

Module AuthLaws.
Import AuthModel AuthSpec Facts AuthProps.

(** *** Logout *)

(** X10.  After [logout] nobody is logged in, in memory and in storage, so
    a new instance finds no session; the accounts, the counter and the
    persisted accounts are untouched; a second [logout] changes nothing
    more; the queries for administrators are refused and [changePassword]
    throws. *)
Theorem logout_closes_the_session current next st :
  isAuthenticated (logout st).2 = false
  ∧ loadCurrentUser (storage (logout st).2) = None
  ∧ users (logout st).2 = users st
  ∧ nextUserId (logout st).2 = nextUserId st
  ∧ item_users (storage (logout st).2) = item_users (storage st)
  ∧ logout (logout st).2 = (Return tt, (logout st).2)
  ∧ getAllUsers (logout st).2 = Throw access_denied
  ∧ changePassword current next (logout st).2
    = (Throw not_authenticated, (logout st).2).
Proof. by split_and!. Qed.

(** *** Login *)



(** *** Reading accounts *)

(** X12.  No query returns a password.  [getUserProfile] returns the
    account found with [parseInt(userId)] without its [password] key and
    with every other key as it is.  [getAllUsers] and [getUserByUsername]
    answer only when the session has the role 'admin', and throw otherwise;
    what they return has no [password] key either, and [getAllUsers]
    returns one profile per account. *)
Theorem queries_never_return_passwords st :
  (∀ userId profile,
     getUserProfile userId st = Some profile →
     profile !! "password" = None
     ∧ ∃ u, u ∈ users st ∧ eq_number (get u "id") (parseInt userId) = true
            ∧ ∀ k, k ≠ "password" → profile !! k = u !! k)
  ∧ (∀ profiles,
       getAllUsers st = Return profiles →
       isAdmin st = true ∧ length profiles = length (users st)
       ∧ ∀ profile, profile ∈ profiles → profile !! "password" = None)
  ∧ (∀ username profile,
       getUserByUsername username st = Return (Some profile) →
       isAdmin st = true ∧ profile !! "password" = None)
  ∧ (isAdmin st = false →
     getAllUsers st = Throw access_denied
     ∧ ∀ username, getUserByUsername username st = Throw access_denied).
Proof.
  split_and!.
  - intros userId profile. unfold getUserProfile.
    destruct (findIndex (has_id userId) (users st)) as [index|] eqn:Hi; [|done].
    destruct (findIndex_Some _ _ _ Hi) as (u & Hu & Hp & _). rewrite Hu.
    intros [= <-]. split; [apply lookup_delete_eq|].
    exists u. split_and!; [by eapply list_elem_of_lookup_2 | done |].
    intros k Hk. by apply lookup_delete_ne.
  - intros profiles. unfold getAllUsers.
    destruct (isAdmin st); [|done]. intros [= <-].
    split_and!; [done | by rewrite length_fmap |].
    intros profile (u & -> & _)%list_elem_of_fmap. apply lookup_delete_eq.
  - intros username profile. unfold getUserByUsername.
    destruct (isAdmin st); [|done]. simpl.
    destruct (findIndex _ (users st)) as [index|]; [|done].
    destruct (users st !! index) as [u|]; [|done].
    intros [= <-]. split; [done | apply lookup_delete_eq].
  - intros Hn. unfold getAllUsers, getUserByUsername. by rewrite Hn.
Qed.

(** *** Registration *)

Lemma registerUser_success now userData st profile st' :
  registerUser now userData st = (Return profile, st') →
  ∃ name mail full tel,
    get userData "username" = VStr name
    ∧ get userData "email" = VStr mail
    ∧ get userData "fullName" = VStr full
    ∧ passes_earlier_checks userData = true
    ∧ find_throwing (same_lowercase "username" (VStr name)) (users st)
      = Return None
    ∧ find_throwing (same_lowercase "email" (VStr mail)) (users st)
      = Return None
    ∧ email_regex mail = true
    ∧ length_lt (get userData "password") 6 = false
    ∧ profile
      = without_password
          (new_account now userData (nextUserId st) name mail full tel)
    ∧ st' = mkState
              (users st
               ++ [new_account now userData (nextUserId st) name mail full tel])
              (currentUser st) (plus_one (nextUserId st))
              (setItem_users
                 (users st
                  ++ [new_account now userData (nextUserId st)
                        name mail full tel])
                 (storage st)).
Proof.
  unfold registerUser. cbv zeta.
  destruct (negb (truthy (get userData "username")) || _ || _ || _) eqn:Hg1;
    [done|].
  destruct (length_lt (get userData "username") 3) eqn:Hg2; [done|].
  destruct (negb (username_regex _)) eqn:Hg3; [done|].
  assert (passes_earlier_checks userData = true) as Hpass.
  { unfold passes_earlier_checks. rewrite Hg2.
    apply negb_false_iff in Hg3. rewrite Hg3.
    rewrite !orb_false_iff, !negb_false_iff in Hg1.
    destruct Hg1 as [[[-> ->] ->] ->]. done. }
  rewrite bind_read, bind_lift.
  destruct (find_throwing _ (users st)) as [[by_name|]|e] eqn:Hfn; [done| |done].
  cbn [bool_decide decide_rel is_Some_dec]. cbv beta iota. rewrite bind_lift.
  destruct (find_throwing (same_lowercase "email" _) (users st))
    as [[by_email|]|e] eqn:Hfe; [done| |done].
  cbn [bool_decide decide_rel is_Some_dec]. cbv beta iota.
  destruct (negb (validateEmailFormat _)) eqn:Hg4; [done|].
  destruct (length_lt (get userData "password") 6) eqn:Hg5; [done|].
  intros (? & st1 & ->%check_phone_state & H)%bind_Return_inv.
  rewrite bind_modify, bind_lift in H.
  destruct (get userData "username") as [| | | |name] eqn:Hn; try done.
  simpl call_trim in H. cbv beta iota in H. rewrite bind_lift in H.
  destruct (get userData "email") as [| | | |mail] eqn:Hm; try done.
  simpl call_trim in H. cbv beta iota in H. rewrite bind_lift in H.
  destruct (get userData "fullName") as [| | | |full] eqn:Hf; try done.
  simpl call_trim in H. cbv beta iota in H.
  apply bind_Return_inv in H as (tel & st2 & Htel & H).
  assert (st2 = mkState (users st) (currentUser st)
                  (plus_one (nextUserId st)) (storage st)) as ->.
  { destruct (truthy (get userData "phone")); [|by injection Htel as _ <-].
    unfold lift in Htel. by injection Htel as _ <-. }
  rewrite bind_modify in H. unfold saveUsers in H. rewrite bind_modify in H.
  cbn [users currentUser nextUserId storage] in H.
  injection H as <- <-.
  exists name, mail, full, tel.
  apply negb_false_iff in Hg4. by split_and!.
Qed.

(** *** Profile updates that fail *)

Lemma update_field_throws userIndex updateData field st e st' :
  update_field userIndex updateData field st = (Throw e, st') → e = TypeError.
Proof.
  unfold update_field.
  destruct (negb (strict_eq (get updateData field) VUndef)); [|done].
  rewrite bind_lift. unfold call_trim.
  destruct (get updateData field); by intros [= <- _].
Qed.

Lemma forEach_update_throws userIndex updateData fields st e st' :
  forEach (update_field userIndex updateData) fields st = (Throw e, st') →
  e = TypeError.
Proof.
  revert st. induction fields as [|field fields IH]; intros st; simpl; [done|].
  intros [H | (? & st1 & _ & H)]%bind_Throw_inv.
  - by eapply update_field_throws.
  - by eapply IH.
Qed.

(** X18.  A throw of [updateUserProfile] never reaches storage, the session
    or the counter.  Either the accounts in memory are as before as well,
    or the exception is the [TypeError] of a [trim] on a field of the patch
    that is not a string, raised while the fields are written one after the
    other: then the account addressed may already carry some of the new
    fields, in memory only, and no other account is changed. *)
Theorem failed_updateUserProfile_is_not_saved now userId updateData st e st' :
  updateUserProfile now userId updateData st = (Throw e, st') →
  storage st' = storage st
  ∧ currentUser st' = currentUser st
  ∧ nextUserId st' = nextUserId st
  ∧ (users st' = users st
     ∨ ∃ index g,
         findIndex (has_id userId) (users st) = Some index
         ∧ e = TypeError
         ∧ users st' = alter g index (users st)
         ∧ writes allowedFields updateData g).
Proof.
  unfold updateUserProfile. rewrite bind_read.
  destruct (findIndex (has_id userId) (users st)) as [index|] eqn:Hi;
    [|intros [= _ <-]; split_and!; auto].
  cbv zeta.
  intros [H | (? & st1 & ->%check_email_state & H)]%bind_Throw_inv.
  { apply check_email_state in H as ->. split_and!; auto. }
  apply bind_Throw_inv in H as [H | (? & st2 & ->%check_phone_state & H)].
  { apply check_phone_state in H as ->. split_and!; auto. }
  apply bind_Throw_inv in H as [H | (? & st3 & H3 & H)].
  { pose proof (forEach_update_throws _ _ _ _ _ _ H) as ->.
    apply forEach_update_effect in H as (g & -> & Hg).
    split_and!; [done..|]. right. by exists index, g. }
  apply forEach_update_effect in H3 as (g & -> & Hg).
  unfold set_user_field in H. rewrite bind_modify in H.
  unfold saveUsers in H. rewrite bind_modify in H.
  unfold refresh_session in H. rewrite bind_assoc, bind_read in H.
  unfold with_users in H. cbn [users currentUser nextUserId storage] in H.
  destruct (currentUser st) as [session|]; [|done].
  by destruct (strict_eq (get session "id") userId).
Qed.

Lemma failed_updateUserProfile_is_not_saved_witness :
  half_updated.1 = Throw TypeError
  ∧ storage half_updated.2 = storage user_logged_in
  ∧ currentUser half_updated.2 = currentUser user_logged_in
  ∧ (λ u, get u "fullName") <$> users user_logged_in !! 1%nat
    = Some (VStr "Demo User")
  ∧ (λ u, get u "fullName") <$> users half_updated.2 !! 1%nat
    = Some (VStr "Demo User II").
Proof.
  assert (updateUserProfile "t5" (VNum 2) name_and_null_phone user_logged_in
          = (Throw TypeError, half_updated.2)) as H by reflexivity.
  destruct (failed_updateUserProfile_is_not_saved _ _ _ _ _ _ H)
    as (Hs & Hc & _).
  split_and!; [reflexivity | exact Hs | exact Hc | reflexivity | reflexivity].
Defined.

(** *** Profile updates that succeed *)

Lemma updateUserProfile_frame_witness :
  ∃ index u u',
    renamed = (Return (without_password u'), renamed.2)
    ∧ users user_logged_in !! index = Some u
    ∧ users renamed.2 = <[index := u']> (users user_logged_in)
    ∧ u' !! "password" = u !! "password"
    ∧ u' !! "updatedAt" = Some (VStr "t5")
    ∧ nextUserId renamed.2 = nextUserId user_logged_in.
Proof.
  assert (renamed = (Return (default ∅ (returned renamed.1)), renamed.2))
    as H by reflexivity.
  destruct (updateUserProfile_frame _ _ _ _ _ _ H)
    as (index & u & u' & _ & Hu & Hus & Hframe & _ & Hstamp & Hp & Hn & _).
  exists index, u, u'. split_and!; [by rewrite <- Hp | done | done | | done | done].
  apply Hframe. rewrite !elem_of_cons, elem_of_nil. intuition discriminate.
Defined.

(** *** Failed registrations *)

(** X15.  Whatever makes [registerUser] throw, the accounts, the session
    and storage are as before the call.  The counter is as before too,
    except when the exception is the [TypeError] of a [trim] on a value
    that is not a string, which is raised after [nextUserId++]: then one id
    is skipped. *)
Theorem failed_registerUser_keeps_the_accounts now userData st e st' :
  registerUser now userData st = (Throw e, st') →
  users st' = users st
  ∧ currentUser st' = currentUser st
  ∧ storage st' = storage st
  ∧ (nextUserId st' = nextUserId st
     ∨ (e = TypeError ∧ nextUserId st' = plus_one (nextUserId st))).
Proof.
  assert (∀ (T : Type) (e0 : exn), (@Throw T e0, st) = (@Throw T e, st') →
            users st' = users st ∧ currentUser st' = currentUser st
            ∧ storage st' = storage st
            ∧ (nextUserId st' = nextUserId st
               ∨ (e = TypeError ∧ nextUserId st' = plus_one (nextUserId st))))
    as Hsame by (intros T e0 [= _ <-]; split_and!; auto).
  unfold registerUser. cbv zeta.
  destruct (negb (truthy (get userData "username")) || _ || _ || _);
    [apply Hsame|].
  destruct (length_lt (get userData "username") 3); [apply Hsame|].
  destruct (negb (username_regex _)); [apply Hsame|].
  rewrite bind_read, bind_lift.
  destruct (find_throwing _ (users st)) as [[by_name|]|e1];
    [apply Hsame | | apply Hsame].
  cbn [bool_decide decide_rel is_Some_dec]. cbv beta iota. rewrite bind_lift.
  destruct (find_throwing (same_lowercase "email" _) (users st))
    as [[by_email|]|e1]; [apply Hsame | | apply Hsame].
  cbn [bool_decide decide_rel is_Some_dec]. cbv beta iota.
  destruct (negb (validateEmailFormat _)); [apply Hsame|].
  destruct (length_lt (get userData "password") 6); [apply Hsame|].
  intros [Hphone | (? & st1 & ->%check_phone_state & H)]%bind_Throw_inv.
  { apply check_phone_state in Hphone as ->. split_and!; auto. }
  rewrite bind_modify in H.
  assert (∀ (T : Type) (e0 : exn),
            (@Throw T e0,
             mkState (users st) (currentUser st) (plus_one (nextUserId st))
               (storage st))
            = (@Throw T e, st') →
            e0 = TypeError →
            users st' = users st ∧ currentUser st' = currentUser st
            ∧ storage st' = storage st
            ∧ (nextUserId st' = nextUserId st
               ∨ (e = TypeError ∧ nextUserId st' = plus_one (nextUserId st))))
    as Hskip by (intros T e0 [= <- <-] ->; split_and!; auto).
  rewrite bind_lift in H.
  destruct (get userData "username") as [| | | |name];
    simpl call_trim in H; cbv beta iota in H;
    try (by apply (Hskip _ TypeError H)).
  rewrite bind_lift in H.
  destruct (get userData "email") as [| | | |mail];
    simpl call_trim in H; cbv beta iota in H;
    try (by apply (Hskip _ TypeError H)).
  rewrite bind_lift in H.
  destruct (get userData "fullName") as [| | | |full];
    simpl call_trim in H; cbv beta iota in H;
    try (by apply (Hskip _ TypeError H)).
  apply bind_Throw_inv in H as [H | (tel & st2 & _ & H)].
  - destruct (truthy (get userData "phone")); [|done].
    unfold lift in H. destruct (call_trim (get userData "phone")) eqn:Ht;
      [done|].
    apply (Hskip _ e0 H).
    unfold call_trim in Ht. destruct (get userData "phone"); congruence.
  - rewrite bind_modify in H. unfold saveUsers in H.
    by rewrite bind_modify in H.
Qed.

Lemma failed_registerUser_keeps_the_accounts_witness :
  registerUser "t5" taken_name_no_password logged_out
  = (Throw missing_required, logged_out)
  ∧ users logged_out = three_accounts.
Proof.
  assert (registerUser "t5" taken_name_no_password logged_out
          = (Throw missing_required, logged_out)) as H by reflexivity.
  destruct (failed_registerUser_keeps_the_accounts _ _ _ _ _ H) as (Hu & _).
  split; [exact H | exact Hu].
Defined.


(** *** Strings without white space *)

Lemma append_nil s : s +:+ "" = s.
Proof. induction s as [|a s IH]; [done|]. by rewrite EventLaws.append_cons, IH. Qed.

Lemma rev_onto_rev_onto s a b : rev_onto (rev_onto s a) b = rev_onto a (s +:+ b).
Proof.
  revert a b. induction s as [|c s IH]; intros a b; [done|].
  simpl. by rewrite IH.
Qed.

Lemma reverse_string_involutive s : reverse_string (reverse_string s) = s.
Proof.
  unfold reverse_string. rewrite rev_onto_rev_onto. simpl. apply append_nil.
Qed.

Lemma all_chars_cons p c s : all_chars p (String c s) = p c && all_chars p s.
Proof. reflexivity. Qed.

Lemma all_chars_rev_onto p s acc :
  all_chars p (rev_onto s acc) = all_chars p s && all_chars p acc.
Proof.
  revert acc. induction s as [|c s IH]; intros acc; [done|].
  simpl rev_onto. rewrite IH, !all_chars_cons.
  destruct (p c), (all_chars p s), (all_chars p acc); done.
Qed.

Lemma all_chars_append p s t :
  all_chars p (s +:+ t) = all_chars p s && all_chars p t.
Proof.
  induction s as [|c s IH]; [done|].
  rewrite EventLaws.append_cons, !all_chars_cons, IH. by rewrite andb_assoc.
Qed.

Lemma all_chars_impl (p q : ascii → bool) s :
  (∀ c, p c = true → q c = true) →
  all_chars p s = true → all_chars q s = true.
Proof.
  intros Hpq. induction s as [|c s IH]; [done|].
  rewrite !all_chars_cons, !andb_true_iff. intros [Hc Hs]. auto.
Qed.

Lemma trimStart_not_space s :
  all_chars not_space s = true → trimStart s = s.
Proof.
  destruct s as [|c s]; [done|]. rewrite all_chars_cons, andb_true_iff.
  intros [Hc _]. simpl. unfold not_space in Hc.
  by destruct (is_space c).
Qed.

(** [trim] returns a string without white space as it is. *)
Lemma trim_not_space s : all_chars not_space s = true → trim s = s.
Proof.
  intros H. unfold trim, trimEnd. rewrite (trimStart_not_space s H).
  rewrite trimStart_not_space; [apply reverse_string_involutive|].
  unfold reverse_string. by rewrite all_chars_rev_onto, H.
Qed.

Lemma is_word_char_not_space c : is_word_char c = true → not_space c = true.
Proof. destruct c as [[] [] [] [] [] [] [] []]; by vm_compute. Qed.

Lemma lower_char_idempotent c : lower_char (lower_char c) = lower_char c.
Proof. destruct c as [[] [] [] [] [] [] [] []]; by vm_compute. Qed.

Lemma toLowerCase_idempotent s : toLowerCase (toLowerCase s) = toLowerCase s.
Proof.
  induction s as [|c s IH]; [done|]. simpl.
  by rewrite lower_char_idempotent, IH.
Qed.

Lemma toLowerCase_empty s : toLowerCase s = "" → s = "".
Proof. by destruct s. Qed.

Lemma username_regex_trim s : username_regex s = true → trim s = s.
Proof.
  unfold username_regex. rewrite andb_true_iff. intros [_ H].
  apply trim_not_space. revert H. apply all_chars_impl.
  apply is_word_char_not_space.
Qed.

Lemma split_at_Some c s l r : split_at c s = Some (l, r) → s = l +:+ String c r.
Proof.
  revert l. induction s as [|a s IH]; intros l; [done|]. simpl.
  case_bool_decide as Ha.
  - intros [= <- <-]. by subst a.
  - destruct (split_at c s) as [[l' r']|]; [|done].
    intros [= <- <-]. by rewrite EventLaws.append_cons, <- (IH l').
Qed.

Lemma email_regex_trim s : email_regex s = true → trim s = s.
Proof.
  unfold email_regex. destruct (split_at "@" s) as [[l r]|] eqn:Hs; [|done].
  rewrite !andb_true_iff. intros [[[_ Hl] Hr] _].
  apply split_at_Some in Hs as ->. apply trim_not_space.
  rewrite all_chars_append, all_chars_cons.
  assert (∀ c, is_email_char c = true → not_space c = true) as Himp.
  { intros c. unfold is_email_char, not_space. by intros [? _]%andb_true_iff. }
  rewrite (all_chars_impl _ _ _ Himp Hl), (all_chars_impl _ _ _ Himp Hr).
  done.
Qed.

(** *** The sign-up form *)

Lemma push_if_nil b msg errors :
  EventView.push_if b msg errors = [] → b = false ∧ errors = [].
Proof. unfold EventView.push_if. destruct b; [|done]. by destruct errors. Qed.

(** X16.  What the validation of the sign-up form guarantees when it
    reports no error, for a form whose fields are strings, as
    [getSignupData] reads them:  [registerUser] makes all its checks of
    presence and shape pass, the one of the phone number apart, which the
    form does not check.  So the registration is refused only because the
    username is taken, because the email is taken, or because the phone
    number is not empty and malformed; otherwise the account is appended
    with the data of the form, the role 'user' and the password of the
    form, and the profile returned is this account without its password. *)
Theorem validated_signup_is_registered
    now signupData st name full mail pw tel :
  EventView.validateSignupData signupData = [] →
  get signupData "username" = VStr name →
  get signupData "fullName" = VStr full →
  get signupData "email" = VStr mail →
  get signupData "password" = VStr pw →
  get signupData "phone" = VStr tel →
  well_formed (users st) →
  (collides "username" name (users st)
   ∧ registerUser now signupData st = (Throw username_exists, st))
  ∨ (¬ collides "username" name (users st)
     ∧ collides "email" mail (users st)
     ∧ registerUser now signupData st = (Throw email_registered, st))
  ∨ (¬ collides "username" name (users st)
     ∧ ¬ collides "email" mail (users st)
     ∧ tel ≠ "" ∧ phone_regex (strip_separators tel) = false
     ∧ registerUser now signupData st = (Throw invalid_phone, st))
  ∨ (¬ collides "username" name (users st)
     ∧ ¬ collides "email" mail (users st)
     ∧ (tel = "" ∨ phone_regex (strip_separators tel) = true)
     ∧ ∃ account profile st',
         registerUser now signupData st = (Return profile, st')
         ∧ users st' = users st ++ [account]
         ∧ profile = without_password account
         ∧ get account "id" = VNum (nextUserId st)
         ∧ get account "username" = VStr name
         ∧ get account "email" = VStr (toLowerCase mail)
         ∧ get account "fullName" = VStr (trim full)
         ∧ get account "phone" = VStr (trim tel)
         ∧ get account "password" = VStr pw
         ∧ get account "role" = VStr "user").
Proof.
  unfold EventView.validateSignupData. cbv zeta.
  intros H Hn Hf Hm Hp Ht Hwf.
  apply push_if_nil in H as [_ H].
  apply push_if_nil in H as [_ H].
  apply push_if_nil in H as [Hpw H].
  apply push_if_nil in H as [Hmail H].
  apply push_if_nil in H as [Hre H].
  apply push_if_nil in H as [Hlen H].
  apply push_if_nil in H as [_ H].
  apply push_if_nil in H as [Htp H].
  apply push_if_nil in H as [Htm H].
  apply push_if_nil in H as [Htf H].
  apply push_if_nil in H as [Htn _].
  apply negb_false_iff in Htn, Htf, Htm, Htp.
  rewrite Htn in Hre, Hlen. rewrite Htm in Hmail. rewrite Htp in Hpw.
  cbn [andb] in Hre, Hlen, Hmail, Hpw.
  apply negb_false_iff in Hre, Hmail.
  rewrite Hn in Hre. simpl toString in Hre.
  unfold EventView.validateEmailFormat in Hmail.
  rewrite Hm in Hmail. simpl toString in Hmail.
  pose proof (username_regex_trim name Hre) as Htrim_n.
  pose proof (email_regex_trim mail Hmail) as Htrim_m.
  unfold registerUser. cbv zeta.
  rewrite Htn, Htf, Htm, Htp, Hlen. cbn [negb orb].
  rewrite Hn. change (toString (VStr name)) with name.
  rewrite Hre. cbn [negb].
  rewrite bind_read, bind_lift.
  destruct (find_same_lowercase (users st) "username" name Hwf)
    as [[Hc (i & u & ->)] | [Hnc ->]]; [by left | by left |].
  right. cbn [bool_decide decide_rel is_Some_dec]. cbv beta iota.
  rewrite bind_lift, Hm.
  destruct (find_same_lowercase (users st) "email" mail Hwf)
    as [[Hc (i & u & ->)] | [Hnc' ->]]; [by right | by left |].
  right. cbn [bool_decide decide_rel is_Some_dec]. cbv beta iota.
  unfold validateEmailFormat. change (toString (VStr mail)) with mail.
  rewrite Hmail. cbn [negb].
  rewrite Hpw, Hf, Ht.
  destruct (decide (tel = "")) as [-> | Hne].
  - right. split_and!; [done | done | by left |].
    eexists _, _, _. split; [reflexivity|].
    cbn [users]. split; [reflexivity|]. split; [reflexivity|].
    split_and!; try reflexivity.
    + change (VStr (trim name) = VStr name). by rewrite Htrim_n.
    + change (VStr (toLowerCase (trim mail)) = VStr (toLowerCase mail)).
      by rewrite Htrim_m.
    + change (get signupData "password" = VStr pw). exact Hp.
  - rewrite (truthy_nonempty tel Hne).
    rewrite bind_assoc, bind_lift. simpl validatePhoneFormat. cbv beta iota.
    destruct (phone_regex (strip_separators tel)) eqn:Hphone.
    + right. split_and!; [done | done | by right |].
      eexists _, _, _. split; [reflexivity|].
      cbn [users]. split; [reflexivity|]. split; [reflexivity|].
      split_and!; try reflexivity.
      * change (VStr (trim name) = VStr name). by rewrite Htrim_n.
      * change (VStr (toLowerCase (trim mail)) = VStr (toLowerCase mail)).
        by rewrite Htrim_m.
      * change (get signupData "password" = VStr pw). exact Hp.
    + left. by split_and!.
Qed.

Lemma validated_signup_is_registered_witness :
  ∃ account profile st',
    registerUser "t5" signup_form logged_out = (Return profile, st')
    ∧ users st' = users logged_out ++ [account]
    ∧ get account "username" = VStr "alice123"
    ∧ get account "role" = VStr "user".
Proof.
  destruct (validated_signup_is_registered "t5" signup_form logged_out
              "alice123" "Alice A" "a@x.com" "secret1" ""
              eq_refl eq_refl eq_refl eq_refl eq_refl eq_refl
              three_accounts_well_formed)
    as [[Hc _] | [(_ & Hc & _) | [(_ & _ & Hne & _) | H]]].
  - repeat (apply Exists_cons in Hc as [Hc | Hc];
            [vm_compute in Hc; discriminate|]).
    by apply Exists_nil in Hc.
  - repeat (apply Exists_cons in Hc as [Hc | Hc];
            [vm_compute in Hc; discriminate|]).
    by apply Exists_nil in Hc.
  - done.
  - destruct H as (_ & _ & _ & account & profile & st' & Hr & Hu & _ & _
                   & Hn & _ & _ & _ & _ & Hrole).
    by exists account, profile, st'.
Defined.

(** *** Registration, then login *)

Lemma find_throwing_None_inv {A} (p : A → outcome bool) xs :
  find_throwing p xs = Return None → ∀ x, x ∈ xs → p x = Return false.
Proof.
  induction xs as [|y xs IH]; [by intros _ x ?%elem_of_nil|]. simpl.
  destruct (p y) as [[|]|e] eqn:Hy; [done| |done].
  destruct (find_throwing p xs) as [[[i z]|]|e]; [done| |done].
  intros _ x [-> | Hx]%elem_of_cons; auto.
Qed.

Lemma find_throwing_last {A} (p : A → outcome bool) xs y :
  (∀ x, x ∈ xs → p x = Return false) → p y = Return true →
  find_throwing p (xs ++ [y]) = Return (Some (length xs, y)).
Proof.
  intros Hxs Hy. induction xs as [|x xs IH]; simpl; [by rewrite Hy|].
  rewrite (Hxs x) by apply list_elem_of_here.
  rewrite IH; [done|]. intros z Hz. apply Hxs. by apply list_elem_of_further.
Qed.

(** An account that the search of [registerUser] passed over holds a
    string that differs from the given one in lower case. *)
Lemma same_lowercase_false k s u :
  same_lowercase k (VStr s) u = Return false →
  ∃ t, get u k = VStr t ∧ toLowerCase t ≠ toLowerCase s.
Proof.
  unfold same_lowercase. destruct (get u k) as [| | | |t]; try done. simpl.
  intros [= H]. exists t. split; [done|]. intros Heq.
  by rewrite bool_decide_eq_true_2 in H.
Qed.

(** X13.  After a successful [registerUser], [authenticate] with the
    registered password and the registered username, in any mixture of
    cases and with white space around it, opens a session of the new
    account: the session carries the registered username, the id taken from
    the counter and the role 'user', whatever role the registration data
    asked for, so it is not a session of an administrator.  The profile
    that [registerUser] returned has the role 'user' and no password. *)
Theorem registerUser_then_authenticate
    now now1 now2 userData st profile st' name given :
  registerUser now userData st = (Return profile, st') →
  get userData "username" = VStr name →
  toLowerCase (trim given) = toLowerCase name →
  ∃ session st'',
    authenticate now1 now2 (VStr given) (get userData "password") st'
    = (Return (Some session), st'')
    ∧ get session "username" = VStr name
    ∧ get session "id" = VNum (nextUserId st)
    ∧ get session "role" = VStr "user"
    ∧ isAdmin st'' = false
    ∧ get profile "role" = VStr "user"
    ∧ profile !! "password" = None.
Proof.
  intros (name' & mail & full & tel & Hn & Hm & Hf & Hpass & Hfn & _ & _ & _
          & -> & ->)%registerUser_success Hname Hgiven.
  rewrite Hn in Hname. injection Hname as ->.
  unfold passes_earlier_checks in Hpass. rewrite !andb_true_iff in Hpass.
  destruct Hpass as [[[[[Htn Htp] _] _] _] Hre].
  rewrite Hn in Htn, Hre. simpl toString in Hre.
  pose proof (username_regex_trim name Hre) as Htrim.
  assert (truthy (VStr given) = true) as Htg.
  { apply truthy_nonempty. intros ->.
    symmetry in Hgiven. apply toLowerCase_empty in Hgiven. subst name.
    discriminate. }
  set (new := new_account now userData (nextUserId st) name mail full tel).
  assert (find_throwing
            (credentials_match (VStr given) (get userData "password"))
            (users st ++ [new])
          = Return (Some (length (users st), new))) as Hfind.
  { apply find_throwing_last.
    - intros u Hu.
      destruct (same_lowercase_false _ _ _
                  (find_throwing_None_inv _ _ Hfn u Hu)) as (t & Ht & Hne).
      unfold credentials_match. rewrite Ht. simpl.
      rewrite bool_decide_eq_false_2; [done|]. by rewrite Hgiven.
    - unfold credentials_match.
      change (get new "username") with (VStr (trim name)).
      change (get new "password") with (get userData "password").
      change (get new "isActive") with (VBool true).
      rewrite Htrim. simpl. rewrite Hgiven.
      rewrite bool_decide_eq_true_2 by done.
      unfold strict_eq. by rewrite bool_decide_eq_true_2. }
  eexists _, _. split.
  { unfold authenticate. rewrite Htg, Htp. cbn [negb orb].
    rewrite bind_read, bind_lift. cbn [users]. rewrite Hfind.
    unfold set_user_field, saveUsers, saveCurrentUser. rewrite !bind_modify.
    reflexivity. }
  split_and!; try reflexivity.
  change (VStr (trim name) = VStr name). by rewrite Htrim.
Qed.

Lemma registerUser_then_authenticate_witness :
  ∃ session st'',
    registerUser "t5" alice logged_out
    = (Return alice_profile, (registerUser "t5" alice logged_out).2)
    ∧ authenticate "t6" "t7" (VStr " Alice123 ") (VStr "secret1")
        (registerUser "t5" alice logged_out).2
      = (Return (Some session), st'')
    ∧ get session "role" = VStr "user"
    ∧ isAdmin st'' = false.
Proof.
  assert (registerUser "t5" alice logged_out
          = (Return alice_profile, (registerUser "t5" alice logged_out).2))
    as H by reflexivity.
  destruct (registerUser_then_authenticate "t5" "t6" "t7" alice logged_out
              _ _ "alice123" " Alice123 " H)
    as (session & st'' & Ha & _ & _ & Hr & Hadm & _);
    [reflexivity | reflexivity |].
  exists session, st''. by split_and!.
Defined.

(** *** Uniqueness of usernames and emails *)

Lemma lowered_not_among k s (us : list (gmap string val)) :
  (∀ u, u ∈ us → same_lowercase k (VStr s) u = Return false) →
  Some (toLowerCase s) ∉ lowered k <$> us.
Proof.
  intros H (u & Hl & Hu)%list_elem_of_fmap.
  destruct (same_lowercase_false _ _ _ (H u Hu)) as (t & Ht & Hne).
  unfold lowered in Hl. rewrite Ht in Hl. congruence.
Qed.

(** X14.  The two default accounts have different usernames and different
    emails, and a successful [registerUser] keeps the accounts unique: if
    usernames and emails were strings and pairwise different, letter case
    aside, they still are with the new account. *)
Theorem registerUser_keeps_accounts_unique now userData st profile st' :
  unique_accounts (users st) →
  registerUser now userData st = (Return profile, st') →
  unique_accounts (users st').
Proof.
  intros (Hwf & Hnn & Hne)
    (name & mail & full & tel & Hn & Hm & Hf & Hpass & Hfn & Hfe & Hre & _
     & _ & ->)%registerUser_success.
  unfold passes_earlier_checks in Hpass. rewrite !andb_true_iff in Hpass.
  destruct Hpass as [_ Hrn]. rewrite Hn in Hrn. simpl toString in Hrn.
  pose proof (username_regex_trim name Hrn) as Htn.
  pose proof (email_regex_trim mail Hre) as Htm.
  cbn [users]. split_and!.
  - apply Forall_app. split; [done|]. apply Forall_singleton.
    split; by eexists.
  - rewrite fmap_app. apply NoDup_app. split_and!; [done | |].
    + intros o Ho ->%list_elem_of_singleton. revert Ho.
      change (lowered "username"
                (new_account now userData (nextUserId st) name mail full tel))
        with (Some (toLowerCase (trim name))).
      rewrite Htn. apply lowered_not_among.
      by apply find_throwing_None_inv.
    + apply NoDup_singleton.
  - rewrite fmap_app. apply NoDup_app. split_and!; [done | |].
    + intros o Ho ->%list_elem_of_singleton. revert Ho.
      change (lowered "email"
                (new_account now userData (nextUserId st) name mail full tel))
        with (Some (toLowerCase (toLowerCase (trim mail)))).
      rewrite Htm, toLowerCase_idempotent. apply lowered_not_among.
      by apply find_throwing_None_inv.
    + apply NoDup_singleton.
Qed.

Lemma three_accounts_unique : unique_accounts three_accounts.
Proof.
  split_and!; [exact three_accounts_well_formed | |];
    vm_compute;
    repeat (apply NoDup_cons; split;
            [rewrite ?elem_of_cons, elem_of_nil; intuition discriminate|]);
    apply NoDup_nil_2.
Defined.

Lemma registerUser_keeps_accounts_unique_witness :
  unique_accounts (users (registerUser "t5" alice logged_out).2).
Proof.
  assert (registerUser "t5" alice logged_out
          = (Return alice_profile, (registerUser "t5" alice logged_out).2))
    as H by reflexivity.
  exact (registerUser_keeps_accounts_unique "t5" alice logged_out _ _
           three_accounts_unique H).
Defined.

(** *** Password change, then login *)

Lemma credentials_match_other_name name password w t :
  get w "username" = VStr t →
  toLowerCase t ≠ toLowerCase (trim name) →
  credentials_match (VStr name) password w = Return false.
Proof.
  intros Ht Hne. unfold credentials_match. rewrite Ht. simpl.
  by rewrite bool_decide_eq_false_2.
Qed.

(** X19.  After a successful [changePassword], over accounts with pairwise
    different usernames, the account of the session is opened by its
    username together with the new password and no longer by the old
    password; storage still holds the accounts as they were, so the change
    does not outlive the instance.  (The username is stored without white
    space around it and the account is not deactivated.) *)
Theorem changePassword_then_authenticate
    now1 now2 old next st index u name :
  unique_accounts (users st) →
  session_account st index u →
  get u "username" = VStr name → name ≠ "" → trim name = name →
  deactivated u = false →
  get u "password" = VStr old → old ≠ "" → old ≠ next →
  (6 ≤ String.length next)%nat →
  ∃ st',
    changePassword (VStr old) (VStr next) st = (Return true, st')
    ∧ (∃ session st'',
         authenticate now1 now2 (VStr name) (VStr next) st'
         = (Return (Some session), st'')
         ∧ get session "id" = get u "id"
         ∧ get session "username" = VStr name)
    ∧ authenticate now1 now2 (VStr name) (VStr old) st' = (Return None, st')
    ∧ item_users (storage st') = item_users (storage st).
Proof.
  intros (Hwf & Hnd & _) (session & Hs & Hi & Hu) Hn Hne Htrim Hact Hp Hold
    Hdiff Hlen.
  assert (next ≠ "") as Hnext by (intros ->; simpl in Hlen; lia).
  set (u' := <["password" := VStr next]> u).
  set (st' := mkState (<[index := u']> (users st)) (currentUser st)
                (nextUserId st) (storage st)).
  assert (changePassword (VStr old) (VStr next) st = (Return true, st'))
    as Hchange.
  { unfold changePassword, bind, read. rewrite Hs, Hi, Hu.
    cbn [from_option]. unfold Datatypes.id. rewrite Hp.
    unfold strict_eq. rewrite bool_decide_eq_true_2 by done. cbn [negb].
    rewrite (truthy_nonempty next Hnext). cbn [negb orb].
    assert (length_lt (VStr next) 6 = false) as ->
      by (simpl; apply Nat.ltb_ge; lia).
    unfold set_user_field, modify, ret, st', u'.
    by rewrite (alter_at _ _ _ _ Hu). }
  assert (users st' !! index = Some u') as Hu'
    by (apply list_lookup_insert_eq; by eapply lookup_lt_Some).
  assert (∀ password j w, j ≠ index → users st' !! j = Some w →
            credentials_match (VStr name) password w = Return false)
    as Hothers.
  { intros password j w Hj Hw. simpl in Hw.
    rewrite list_lookup_insert_ne in Hw by done.
    destruct (proj1 (Forall_forall _ _) Hwf w) as [[t Ht] _];
      [by eapply list_elem_of_lookup_2|].
    apply (credentials_match_other_name _ _ _ t Ht). rewrite Htrim.
    pose proof (EventLaws.NoDup_fmap_lookup_ne (lowered "username") _ _ _ _ _
                  Hnd Hw Hu Hj) as Hlow.
    unfold lowered in Hlow. rewrite Ht, Hn in Hlow. congruence. }
  assert (∀ pw, credentials_match (VStr name) (VStr pw) u'
                = Return (bool_decide (pw = next))) as Hself.
  { intros pw. unfold credentials_match.
    assert (get u' "username" = VStr name) as ->
      by (unfold u', get; by rewrite lookup_insert_ne, <- Hn).
    assert (get u' "password" = VStr next) as ->
      by (unfold u', get; by rewrite lookup_insert_eq).
    assert (get u' "isActive" = get u "isActive") as ->
      by (unfold u', get; by rewrite lookup_insert_ne).
    simpl. rewrite Htrim, bool_decide_eq_true_2 by done.
    unfold deactivated in Hact. unfold strict_eq. rewrite Hact. simpl.
    rewrite andb_true_r. f_equal.
    destruct (decide (pw = next)) as [-> | Hpw].
    - by rewrite !bool_decide_eq_true_2.
    - rewrite !bool_decide_eq_false_2; [done | done | congruence]. }
  exists st'. split_and!; [done | | | done].
  - eexists _, _. split.
    + unfold authenticate.
      rewrite (truthy_nonempty name Hne), (truthy_nonempty next Hnext).
      cbn [negb orb]. rewrite bind_read, bind_lift.
      rewrite (find_throwing_at _ _ index u' Hu').
      * unfold set_user_field, saveUsers, saveCurrentUser.
        rewrite !bind_modify. reflexivity.
      * by rewrite Hself, bool_decide_eq_true_2.
      * intros j w Hj. apply Hothers. lia.
    + split.
      * change (get (<["lastLogin" := VStr now1]> u') "id" = get u "id").
        unfold u', get. by rewrite !lookup_insert_ne.
      * change (get (<["lastLogin" := VStr now1]> u') "username" = VStr name).
        unfold u', get. by rewrite !lookup_insert_ne, <- Hn.
  - unfold authenticate.
    rewrite (truthy_nonempty name Hne), (truthy_nonempty old Hold).
    cbn [negb orb]. rewrite bind_read, bind_lift.
    rewrite find_throwing_None; [done|].
    intros w (j & Hw)%list_elem_of_lookup_1.
    destruct (decide (j = index)) as [-> | Hj]; [|by eapply Hothers].
    rewrite Hu' in Hw. injection Hw as <-.
    by rewrite Hself, bool_decide_eq_false_2.
Qed.

Lemma changePassword_then_authenticate_witness :
  ∃ st',
    changePassword (VStr "password") (VStr "hunter22") admin_logged_in
    = (Return true, st')
    ∧ (∃ session st'',
         authenticate "t3" "t4" (VStr "admin") (VStr "hunter22") st'
         = (Return (Some session), st'')
         ∧ get session "id" = VNum 1)
    ∧ authenticate "t3" "t4" (VStr "admin") (VStr "password") st'
      = (Return None, st').
Proof.
  destruct (changePassword_then_authenticate "t3" "t4" "password" "hunter22"
              admin_logged_in 0%nat
              (<["lastLogin" := VStr "t1"]> (default ∅ (head three_accounts)))
              "admin")
    as (st' & Hc & (session & st'' & Ha & Hid & _) & Ho & _).
  - split_and!.
    + repeat constructor; eexists; reflexivity.
    + vm_compute.
      repeat (apply NoDup_cons; split;
              [rewrite ?elem_of_cons, elem_of_nil; intuition discriminate|]).
      apply NoDup_nil_2.
    + vm_compute.
      repeat (apply NoDup_cons; split;
              [rewrite ?elem_of_cons, elem_of_nil; intuition discriminate|]).
      apply NoDup_nil_2.
  - exists admin_session. split_and!; reflexivity.
  - reflexivity.
  - discriminate.
  - reflexivity.
  - reflexivity.
  - reflexivity.
  - discriminate.
  - discriminate.
  - simpl. lia.
  - exists st'. split_and!; [done | | done].
    exists session, st''. split; [done|]. rewrite Hid. reflexivity.
Defined.

End AuthLaws.
